(** * qualitybase: dispatch and result aggregation

    A shallow embedding of [src/qualitybase/services/utils.py]: the command
    dispatcher [run_service_command], the process executor [run_command],
    and the result aggregator and renderers [summarize_results],
    [format_results_table] and [format_results_json].

    Conventions of the embedding.
    - A Python [str] is a list of Unicode code points ([list N]); [len] is
      [length], so padding is counted in code points as Python does.
    - A value of type [Any] stored in a result dictionary is a [pyval]:
      [None], a [bool], an [int] or a [str].  Floats and nested containers
      as dictionary values are outside the model.
    - A Python [float] is an IEEE 754 binary64 number ([spec_float] with 53
      bits of precision); the operations on it round to nearest, ties to
      even, as the interpreter's do.
    - A [dict] is an association list in insertion order.
    - A call that can raise returns an [outcome]; printing is recorded as a
      list of [event]s. *)

From Stdlib Require Import String Ascii ZArith NArith QArith Lia Bool Decimal DecimalZ
  SpecFloat List.
From Stdlib Require Import Permutation.
Import ListNotations.

Set Warnings "-register-all".

Local Open Scope Z_scope.
Local Open Scope list_scope.

(** ** Strings *)

Definition str := list N.

(** An ASCII literal as a Python string. *)
Definition lit (s : string) : str := map N_of_ascii (list_ascii_of_string s).

(** [s.ljust(w)], also the effect of the format specification [<w] on a
    string: pad with spaces on the right up to [w], never shorten. *)
Definition ljust (s : str) (w : nat) : str :=
  s ++ repeat 32%N (w - length s)%nat.

(** [c * n] for a one-character string [c]. *)
Definition str_mul (c : N) (n : nat) : str := repeat c n.

(** [sep.join(parts)] *)
Fixpoint join (sep : str) (parts : list str) : str :=
  match parts with
  | [] => []
  | [p] => p
  | p :: rest => p ++ sep ++ join sep rest
  end.

(** Decimal digits of an unsigned decimal number, most significant first. *)
Fixpoint uint_digits (d : Decimal.uint) : str :=
  match d with
  | Nil => []
  | D0 d => 48%N :: uint_digits d
  | D1 d => 49%N :: uint_digits d
  | D2 d => 50%N :: uint_digits d
  | D3 d => 51%N :: uint_digits d
  | D4 d => 52%N :: uint_digits d
  | D5 d => 53%N :: uint_digits d
  | D6 d => 54%N :: uint_digits d
  | D7 d => 55%N :: uint_digits d
  | D8 d => 56%N :: uint_digits d
  | D9 d => 57%N :: uint_digits d
  end.

(** [str(z)] for an [int]. *)
Definition str_of_int (z : Z) : str :=
  match Z.to_int z with
  | Decimal.Pos d => uint_digits d
  | Decimal.Neg d => 45%N :: uint_digits d
  end.

(** ** Values *)

Inductive pyval :=
| VNone
| VBool (b : bool)
| VInt (z : Z)
| VStr (s : str).

(** [bool(v)] *)
Definition truthy (v : pyval) : bool :=
  match v with
  | VNone => false
  | VBool b => b
  | VInt z => negb (z =? 0)
  | VStr s => negb (Nat.eqb (length s) 0)
  end.

(** [str(v)], what an f-string field without format specification shows. *)
Definition py_str (v : pyval) : str :=
  match v with
  | VNone => lit "None"
  | VBool true => lit "True"
  | VBool false => lit "False"
  | VInt z => str_of_int z
  | VStr s => s
  end.

Definition dict := list (str * pyval).

(** [a == b] on strings *)
Fixpoint str_eqb (a b : str) : bool :=
  match a, b with
  | [], [] => true
  | x :: a', y :: b' => (x =? y)%N && str_eqb a' b'
  | _, _ => false
  end.

(** [d.get(key, default)] *)
Fixpoint get (d : dict) (key : str) (default : pyval) : pyval :=
  match d with
  | [] => default
  | (k, v) :: rest => if str_eqb k key then v else get rest key default
  end.

(** [key in d] *)
Definition has_key {V} (d : list (str * V)) (key : str) : bool :=
  existsb (fun kv => str_eqb (fst kv) key) d.

(** No key occurs twice, as in every Python [dict]. *)
Fixpoint distinct_keys {V} (d : list (str * V)) : bool :=
  match d with
  | [] => true
  | (k, _) :: rest => negb (has_key rest k) && distinct_keys rest
  end.

(** ** Exceptions *)

Inductive exc_class :=
| BaseException
| Exception
| KeyboardInterrupt
| SystemExit
| GeneratorExit
| TypeError
| ValueError
| IndexError
| OSError
| FileNotFoundError
| CalledProcessError
| UserClass (name : string) (base : exc_class).

(** The class itself followed by its bases, nearest first. *)
Fixpoint mro (c : exc_class) : list exc_class :=
  c :: match c with
       | BaseException => []
       | Exception | KeyboardInterrupt | SystemExit | GeneratorExit =>
           [BaseException]
       | TypeError | ValueError | IndexError | OSError | CalledProcessError =>
           [Exception; BaseException]
       | FileNotFoundError => [OSError; Exception; BaseException]
       | UserClass _ base => mro base
       end.

Definition exc_class_eq_dec (a b : exc_class) : {a = b} + {a <> b}.
Proof. decide equality. apply string_dec. Defined.

Definition issubclass (c d : exc_class) : bool :=
  existsb (fun a => if exc_class_eq_dec a d then true else false) (mro c).

Record exn := { exn_class : exc_class; exn_message : str }.

(** [isinstance(e, c)], the test an [except c] clause makes. *)
Definition isinstance (e : exn) (c : exc_class) : bool :=
  issubclass (exn_class e) c.

Inductive outcome (A : Type) :=
| Returns (a : A)
| Raises (e : exn).
Arguments Returns {A} a.
Arguments Raises {A} e.

Definition bind {A B} (m : outcome A) (f : A -> outcome B) : outcome B :=
  match m with
  | Returns a => f a
  | Raises e => Raises e
  end.

Notation "x <- m ;; k" := (bind m (fun x => k))
  (at level 61, m at next level, right associativity).

(** ** Output *)

Inductive event :=
| Stdout (line : str)          (* [print(line)] *)
| Stderr (line : str)          (* [print(line, file=sys.stderr)] *)
| PrintExc (e : exn).          (* [traceback.print_exc()] while handling [e] *)

Definition is_trace (ev : event) : bool :=
  match ev with PrintExc _ => true | _ => false end.

Section Utils.

(** The module clears every colour code at import time on Windows without
    ANSICON; [ansi] is [true] when the codes are kept. *)
Variable ansi : bool.

Definition ESC : N := 27%N.
Definition colour (code : string) : str :=
  if ansi then ESC :: lit code else [].

Definition GREEN := colour "[92m".
Definition RED := colour "[91m".
Definition YELLOW := colour "[93m".
Definition CYAN := colour "[96m".
Definition NC := colour "[0m".

Definition print_error (message : str) : event := Stderr (RED ++ message ++ NC).
Definition print_warning (message : str) : event := Stdout (YELLOW ++ message ++ NC).

(** ** Command dispatcher *)

(** A task called with its arguments prints what it prints and then
    returns a value or raises. *)
Definition task (Args : Type) := Args -> list event * outcome pyval.

Definition cancel_notice : str := 10%N :: lit "Operation cancelled by user.".

(** [run_service_command(command_func, *args, **kwargs)].  The result is
    [Returns code] when the dispatcher returns [code] and [Raises e] when
    [e] leaves the dispatcher. *)
Definition run_service_command {Args} (command_func : task Args) (args : Args)
  : list event * outcome Z :=
  let (out, r) := command_func args in
  match r with
  | Returns success => (out, Returns (if truthy success then 0 else 1))
  | Raises exc =>
      if isinstance exc KeyboardInterrupt then
        (out ++ [print_warning cancel_notice], Returns 130)
      else if isinstance exc Exception then
        (out ++ [print_error (lit "Error: " ++ exn_message exc); PrintExc exc],
         Returns 1)
      else (out, Raises exc)
  end.

(** ** Process executor *)

(** The operating system as [run_command] sees it: whether a program is
    found on the search path, and the exit code and standard output of a
    program that is run. *)
Variable on_search_path : str -> bool.
Variable child_process : list str -> Z * str.




(** ** Result aggregation *)

(** A ResultSet value: a [dict] ([isinstance(result, dict)]) or anything
    else, which the code reads through [bool(result)]. *)
Inductive tool_result :=
| Plain (v : pyval)
| Structured (d : dict).

Definition result_set := list (str * tool_result).

(** *** Numbers

    [float] is binary64.  [float(z)] of an [int] is the nearest binary64
    number, exact up to [2^53]; [a / b] on two [int]s is their correctly
    rounded quotient, which is the quotient of the two conversions as long
    as both are exact, so for every count a result set can hold. *)
Definition prec : Z := 53.
Definition emax : Z := 1024.

Definition float := spec_float.

Definition float_of_int (z : Z) : float := binary_normalize prec emax z 0 false.
Definition float_div (x y : float) : float := SFdiv prec emax x y.
Definition float_mul (x y : float) : float := SFmul prec emax x y.

(** [a / b] for two [int]s, [b] not zero. *)
Definition int_truediv (a b : Z) : float :=
  float_div (float_of_int a) (float_of_int b).

(** The real number a finite [float] stands for. *)
Definition float_value (x : float) : Q :=
  match x with
  | S754_finite s m e => (inject_Z (cond_Zopp s (Zpos m)) * Qpower (inject_Z 2) e)%Q
  | _ => 0%Q
  end.

(** The value under the key [success_rate]: the [int] 0 or a [float]. *)
Inductive number :=
| NInt (z : Z)
| NFloat (x : float).

Record summary := {
  total : Z;
  passed : Z;
  failed : Z;
  success_rate : number;
  total_errors : Z;
  total_warnings : Z
}.

(** [acc += v] for an [int] accumulator: [bool] is a subclass of [int],
    anything else in the model raises [TypeError]. *)
Definition iadd (acc : Z) (v : pyval) : outcome Z :=
  match v with
  | VInt z => Returns (acc + z)
  | VBool b => Returns (acc + Z.b2z b)
  | VNone => Raises {| exn_class := TypeError;
        exn_message := lit "unsupported operand type(s) for +=: 'int' and 'NoneType'" |}
  | VStr _ => Raises {| exn_class := TypeError;
        exn_message := lit "unsupported operand type(s) for +=: 'int' and 'str'" |}
  end.

(** The local variables of the loop of [summarize_results]. *)
Record counters := {
  c_passed : Z;
  c_failed : Z;
  c_errors : Z;
  c_warnings : Z
}.

(** One iteration of the loop body. *)
Definition summarize_step (c : counters) (result : tool_result) : outcome counters :=
  match result with
  | Structured d =>
      let status := get d (lit "status") (VBool false) in
      errs <- iadd (c_errors c) (get d (lit "errors") (VInt 0)) ;;
      warns <- iadd (c_warnings c) (get d (lit "warnings") (VInt 0)) ;;
      Returns (if truthy status
               then {| c_passed := c_passed c + 1; c_failed := c_failed c;
                       c_errors := errs; c_warnings := warns |}
               else {| c_passed := c_passed c; c_failed := c_failed c + 1;
                       c_errors := errs; c_warnings := warns |})
  | Plain v =>
      let status := truthy v in
      Returns (if status
               then {| c_passed := c_passed c + 1; c_failed := c_failed c;
                       c_errors := c_errors c; c_warnings := c_warnings c |}
               else {| c_passed := c_passed c; c_failed := c_failed c + 1;
                       c_errors := c_errors c; c_warnings := c_warnings c |})
  end.

(** [passed = 0], [failed = 0], [total_errors = 0], [total_warnings = 0] *)
Definition zero_counters : counters :=
  {| c_passed := 0; c_failed := 0; c_errors := 0; c_warnings := 0 |}.

Fixpoint summarize_loop (items : result_set) (c : counters) : outcome counters :=
  match items with
  | [] => Returns c
  | (_tool, result) :: rest =>
      c' <- summarize_step c result ;;
      summarize_loop rest c'
  end.

(** [summarize_results(results)].  [passed / total * 100] is evaluated
    from left to right in binary64: the quotient is rounded, then the
    product with [100.0] is rounded. *)
Definition summarize_results (results : result_set) : outcome summary :=
  let total := Z.of_nat (length results) in
  c <- summarize_loop results zero_counters ;;
  Returns {| total := total;
             passed := c_passed c;
             failed := c_failed c;
             success_rate :=
               if total >? 0
               then NFloat (float_mul (int_truediv (c_passed c) total)
                                      (float_of_int 100))
               else NInt 0;
             total_errors := c_errors c;
             total_warnings := c_warnings c |}.

(** ** Table rendering *)

(** [max(len(str(k)) for k in results)]; the wording of the message
    depends on the interpreter version. *)
Definition max_len (keys : list str) : outcome nat :=
  match keys with
  | [] => Raises {| exn_class := ValueError;
                    exn_message := lit "max() arg is an empty sequence" |}
  | k :: rest => Returns (fold_left Nat.max (map (@length N) rest) (length k))
  end.

(** [f"{v:<{w}}"]: a string is padded, an [int] (and so a [bool]) is shown
    in decimal and padded, [None] does not accept a format specification. *)
Definition format_left (v : pyval) (w : nat) : outcome str :=
  match v with
  | VStr s => Returns (ljust s w)
  | VInt z => Returns (ljust (str_of_int z) w)
  | VBool b => Returns (ljust (str_of_int (Z.b2z b)) w)
  | VNone => Raises {| exn_class := TypeError;
        exn_message := lit "unsupported format string passed to NoneType.__format__" |}
  end.

Definition details_width : nat := 50.

Definition PASS : str := GREEN ++ 10003%N :: lit " PASS" ++ NC.
Definition FAIL : str := RED ++ 10007%N :: lit " FAIL" ++ NC.

(** The [status] and [details] a row shows for a result. *)
Definition row_fields (result : tool_result) : pyval * pyval :=
  match result with
  | Structured d =>
      let status := get d (lit "status") (VBool false) in
      let details := get d (lit "details") (VStr []) in
      let errors := get d (lit "errors") (VInt 0) in
      let warnings := get d (lit "warnings") (VInt 0) in
      if truthy errors || truthy warnings
      then (status, VStr (lit "Errors: " ++ py_str errors
                          ++ lit ", Warnings: " ++ py_str warnings))
      else (status, details)
  | Plain v => (VBool (truthy v), VStr [])
  end.

(** The variable [row] before the details cell is appended. *)
Definition row_head (tool_width : nat) (show_status : bool)
    (tool : str) (status : pyval) : str :=
  let status_width := if show_status then 10%nat else 0%nat in
  let row := ljust tool tool_width in
  if show_status
  then row ++ lit " " ++ ljust (if truthy status then PASS else FAIL)
                               (status_width + 9)
  else row.

(** The body of the row loop of [format_results_table]. *)
Definition render_row (tool_width : nat) (show_status : bool)
    (tool : str) (result : tool_result) : outcome str :=
  let (status, details) := row_fields result in
  let row := row_head tool_width show_status tool status in
  cell <- format_left details details_width ;;
  Returns (row ++ lit " " ++ cell).

Fixpoint render_rows (tool_width : nat) (show_status : bool) (items : result_set)
  : outcome (list str) :=
  match items with
  | [] => Returns []
  | (tool, result) :: rest =>
      row <- render_row tool_width show_status tool result ;;
      rows <- render_rows tool_width show_status rest ;;
      Returns (row :: rows)
  end.

Definition tool_width_of (longest : nat) : nat :=
  if (longest + 2 <? 20)%nat then 20%nat else (longest + 2)%nat.

(** The lines the [if title:] block appends. *)
Definition title_lines (title : option str) : list str :=
  match title with
  | Some t => if truthy (VStr t)
              then [10%N :: t; str_mul 61%N 70]
              else []
  | None => []
  end.

(** The list [lines] that [format_results_table] builds. *)
Definition table_lines (results : result_set) (title : option str)
    (show_status : bool) : outcome (list str) :=
  let lines := title_lines title in
  longest <- max_len (map fst results) ;;
  let tool_width := tool_width_of longest in
  let status_width := if show_status then 10%nat else 0%nat in
  let header := ljust (lit "Tool") tool_width in
  let header :=
    if show_status then header ++ lit " " ++ ljust (lit "Status") status_width
    else header in
  let header := header ++ lit " " ++ ljust (lit "Details") details_width in
  rows <- render_rows tool_width show_status results ;;
  Returns (lines ++ [header; str_mul 45%N 70] ++ rows).

(** [format_results_table(results, title, show_status)] *)
Definition format_results_table (results : result_set) (title : option str)
    (show_status : bool) : outcome str :=
  lines <- table_lines results title show_status ;;
  Returns (join [10%N] lines).

End Utils.

(** ** JSON rendering *)

(** Item assignment [d[k] = v]: an existing key keeps its position. *)
Fixpoint setitem {V} (d : list (str * V)) (k : str) (v : V) : list (str * V) :=
  match d with
  | [] => [(k, v)]
  | (k', v') :: rest =>
      if str_eqb k' k then (k', v) :: rest else (k', v') :: setitem rest k v
  end.

(** What the loop of [format_results_json] stores for one result. *)
Definition json_entry (result : tool_result) : dict :=
  match result with
  | Structured d => d
  | Plain v => [(lit "status", VBool (truthy v))]
  end.

(** The dictionary [json_results] that the loop builds. *)
Definition json_results (results : result_set) : list (str * dict) :=
  fold_left (fun acc item => setitem acc (fst item) (json_entry (snd item)))
            results [].

(** *** The library call [json.dumps(obj, indent=2)]

    Strings are escaped as [ensure_ascii=True] does: the two-character
    escapes, [\uXXXX] in lower-case hexadecimal for every other code point
    outside [' '..'~'], and a surrogate pair above the basic plane. *)

Definition hex_digit (d : N) : N :=
  if (d <? 10)%N then (48 + d)%N else (87 + d)%N.

Definition hex4 (n : N) : str :=
  [hex_digit (n / 4096 mod 16); hex_digit (n / 256 mod 16);
   hex_digit (n / 16 mod 16); hex_digit (n mod 16)]%N.

Definition u_escape (n : N) : str := 92%N :: 117%N :: hex4 n.

Definition escape_char (c : N) : str :=
  (if c =? 34 then [92; 34]
   else if c =? 92 then [92; 92]
   else if c =? 10 then [92; 110]
   else if c =? 13 then [92; 114]
   else if c =? 9 then [92; 116]
   else if c =? 8 then [92; 98]
   else if c =? 12 then [92; 102]
   else if (32 <=? c) && (c <=? 126) then [c]
   else if c <? 65536 then u_escape c
   else u_escape (55296 + ((c - 65536) / 1024) mod 1024)
        ++ u_escape (56320 + (c - 65536) mod 1024))%N.

Definition json_string (s : str) : str :=
  34%N :: flat_map escape_char s ++ [34%N].

Definition json_scalar (v : pyval) : str :=
  match v with
  | VNone => lit "null"
  | VBool true => lit "true"
  | VBool false => lit "false"
  | VInt z => str_of_int z
  | VStr s => json_string s
  end.

Definition spaces (n : nat) : str := repeat 32%N n.

(** One [key: value] item at nesting depth [level]. *)
Definition json_item {V} (enc : V -> str) (level : nat) (kv : str * V) : str :=
  spaces (2 * level) ++ json_string (fst kv) ++ lit ": " ++ enc (snd kv).

(** A dictionary at nesting depth [level], its items one level deeper. *)
Definition json_object {V} (enc : V -> str) (level : nat) (d : list (str * V)) : str :=
  match d with
  | [] => lit "{}"
  | _ => lit "{" ++ [10%N]
         ++ join (lit "," ++ [10%N]) (map (json_item enc (S level)) d)
         ++ [10%N] ++ spaces (2 * level) ++ lit "}"
  end.

Definition json_dumps_indent2 (obj : list (str * dict)) : str :=
  json_object (json_object json_scalar 1) 0 obj.

(** [format_results_json(results)] *)
Definition format_results_json (results : result_set) : str :=
  json_dumps_indent2 (json_results results).

(** *** The library call [json.loads(text)]

    A decoder for the documents [json.dumps] writes in this model:
    objects, strings, integers, [true], [false] and [null], with
    insignificant white space.  It reads numbers more leniently than
    Python does (leading zeros are accepted); on the output of the encoder
    the two agree. *)

Inductive json :=
| JNull
| JBool (b : bool)
| JInt (z : Z)
| JStr (s : str)
| JObject (members : list (str * json)).

Definition is_ws (c : N) : bool :=
  ((c =? 32) || (c =? 10) || (c =? 13) || (c =? 9))%N.

Fixpoint skip_ws (s : str) : str :=
  match s with
  | c :: rest => if is_ws c then skip_ws rest else s
  | [] => []
  end.

Definition hex_value (c : N) : option N :=
  (if (48 <=? c) && (c <=? 57) then Some (c - 48)
   else if (97 <=? c) && (c <=? 102) then Some (c - 87)
   else if (65 <=? c) && (c <=? 70) then Some (c - 55)
   else None)%N.

Definition decode_hex4 (h1 h2 h3 h4 : N) : option N :=
  match hex_value h1, hex_value h2, hex_value h3, hex_value h4 with
  | Some a, Some b, Some c, Some d => Some (a * 4096 + b * 256 + c * 16 + d)%N
  | _, _, _, _ => None
  end.

Definition is_high_surrogate (u : N) : bool := ((55296 <=? u) && (u <=? 56319))%N.
Definition is_low_surrogate (u : N) : bool := ((56320 <=? u) && (u <=? 57343))%N.

Definition cons_char (c : N) (r : option (str * str)) : option (str * str) :=
  match r with
  | Some (t, rest) => Some (c :: t, rest)
  | None => None
  end.

(** The characters of a string literal after its opening quote, and what
    follows the closing quote. *)
Fixpoint scanstring (s : str) : option (str * str) :=
  match s with
  | [] => None
  | c :: rest =>
      if (c =? 34)%N then Some ([], rest)
      else if (c =? 92)%N then
        match rest with
        | [] => None
        | e :: rest1 =>
            if (e =? 117)%N then
              match rest1 with
              | h1 :: h2 :: h3 :: h4 :: rest2 =>
                  match decode_hex4 h1 h2 h3 h4 with
                  | None => None
                  | Some uni =>
                      if is_high_surrogate uni then
                        match rest2 with
                        | b :: u :: g1 :: g2 :: g3 :: g4 :: rest3 =>
                            if ((b =? 92) && (u =? 117))%N then
                              match decode_hex4 g1 g2 g3 g4 with
                              | None => None
                              | Some uni2 =>
                                  if is_low_surrogate uni2 then
                                    cons_char
                                      (65536 + (uni - 55296) * 1024
                                       + (uni2 - 56320))%N
                                      (scanstring rest3)
                                  else cons_char uni (scanstring rest2)
                              end
                            else cons_char uni (scanstring rest2)
                        | _ => cons_char uni (scanstring rest2)
                        end
                      else cons_char uni (scanstring rest2)
                  end
              | _ => None
              end
            else if (e =? 34)%N then cons_char 34%N (scanstring rest1)
            else if (e =? 92)%N then cons_char 92%N (scanstring rest1)
            else if (e =? 47)%N then cons_char 47%N (scanstring rest1)
            else if (e =? 98)%N then cons_char 8%N (scanstring rest1)
            else if (e =? 102)%N then cons_char 12%N (scanstring rest1)
            else if (e =? 110)%N then cons_char 10%N (scanstring rest1)
            else if (e =? 114)%N then cons_char 13%N (scanstring rest1)
            else if (e =? 116)%N then cons_char 9%N (scanstring rest1)
            else None
        end
      else if (c <? 32)%N then None
      else cons_char c (scanstring rest)
  end.

Definition digit_value (c : N) : option (Decimal.uint -> Decimal.uint) :=
  (if c =? 48 then Some D0 else if c =? 49 then Some D1
   else if c =? 50 then Some D2 else if c =? 51 then Some D3
   else if c =? 52 then Some D4 else if c =? 53 then Some D5
   else if c =? 54 then Some D6 else if c =? 55 then Some D7
   else if c =? 56 then Some D8 else if c =? 57 then Some D9
   else None)%N.

(** The longest run of digits at the head of the input. *)
Fixpoint read_digits (s : str) : Decimal.uint * str :=
  match s with
  | [] => (Nil, [])
  | c :: rest =>
      match digit_value c with
      | Some d => let (u, r) := read_digits rest in (d u, r)
      | None => (Nil, s)
      end
  end.

Definition read_number (s : str) : option (Z * str) :=
  match s with
  | c :: rest =>
      if (c =? 45)%N then
        match read_digits rest with
        | (Nil, _) => None
        | (u, r) => Some (Z.of_int (Decimal.Neg u), r)
        end
      else
        match read_digits s with
        | (Nil, _) => None
        | (u, r) => Some (Z.of_int (Decimal.Pos u), r)
        end
  | [] => None
  end.

(** [word] is a prefix of the input: what follows it. *)
Fixpoint strip_prefix (word s : str) : option str :=
  match word, s with
  | [], _ => Some s
  | w :: word', c :: s' => if (w =? c)%N then strip_prefix word' s' else None
  | _ :: _, [] => None
  end.

Fixpoint parse_value (fuel : nat) (s : str) : option (json * str) :=
  match fuel with
  | O => None
  | S fuel' =>
      match skip_ws s with
      | [] => None
      | c :: rest =>
          if (c =? 123)%N then
            match skip_ws rest with
            | [] => None
            | c2 :: rest2 =>
                if (c2 =? 125)%N then Some (JObject [], rest2)
                else
                  match parse_members fuel' (c2 :: rest2) with
                  | Some (ms, r) => Some (JObject ms, r)
                  | None => None
                  end
            end
          else if (c =? 34)%N then
            match scanstring rest with
            | Some (t, r) => Some (JStr t, r)
            | None => None
            end
          else
            match strip_prefix (lit "null") (c :: rest) with
            | Some r => Some (JNull, r)
            | None =>
            match strip_prefix (lit "true") (c :: rest) with
            | Some r => Some (JBool true, r)
            | None =>
            match strip_prefix (lit "false") (c :: rest) with
            | Some r => Some (JBool false, r)
            | None =>
            match read_number (c :: rest) with
            | Some (z, r) => Some (JInt z, r)
            | None => None
            end end end end
      end
  end

with parse_members (fuel : nat) (s : str) : option (list (str * json) * str) :=
  match fuel with
  | O => None
  | S fuel' =>
      match s with
      | [] => None
      | q :: rest =>
          if (q =? 34)%N then
            match scanstring rest with
            | None => None
            | Some (key, r1) =>
                match skip_ws r1 with
                | [] => None
                | colon :: r2 =>
                    if (colon =? 58)%N then
                      match parse_value fuel' r2 with
                      | None => None
                      | Some (v, r3) =>
                          match skip_ws r3 with
                          | [] => None
                          | c3 :: r4 =>
                              if (c3 =? 125)%N then Some ([(key, v)], r4)
                              else if (c3 =? 44)%N then
                                match parse_members fuel' (skip_ws r4) with
                                | Some (ms, r5) => Some ((key, v) :: ms, r5)
                                | None => None
                                end
                              else None
                          end
                      end
                    else None
                end
            end
          else None
      end
  end.

(** Python turns the members of an object into a [dict]: a repeated key
    keeps its first position and its last value. *)
Fixpoint to_dict (j : json) : json :=
  match j with
  | JObject members =>
      JObject (fold_left (fun acc kv => setitem acc (fst kv) (to_dict (snd kv)))
                         members [])
  | _ => j
  end.

Definition json_loads (text : str) : option json :=
  match parse_value (S (length text)) text with
  | Some (v, rest) =>
      match skip_ws rest with
      | [] => Some (to_dict v)
      | _ :: _ => None
      end
  | None => None
  end.

(** The value [json.loads] gives back for a dictionary of dictionaries. *)
Definition json_of_scalar (v : pyval) : json :=
  match v with
  | VNone => JNull
  | VBool b => JBool b
  | VInt z => JInt z
  | VStr s => JStr s
  end.

Definition json_of_dict (d : dict) : json :=
  JObject (map (fun kv => (fst kv, json_of_scalar (snd kv))) d).

Definition json_of_results (obj : list (str * dict)) : json :=
  JObject (map (fun kv => (fst kv, json_of_dict (snd kv))) obj).

(** The spec's words for the normalised entry: "a plain boolean outcome is
    treated as {status: outcome, details: empty, errorCount: 0,
    warningCount: 0}", with the keys [status], [details], [errors] and
    [warnings]. *)
Definition spec_normalize (result : tool_result) : dict :=
  match result with
  | Plain v =>
      [(lit "status", VBool (truthy v)); (lit "details", VStr []);
       (lit "errors", VInt 0); (lit "warnings", VInt 0)]
  | Structured d =>
      [(lit "status", get d (lit "status") (VBool false));
       (lit "details", get d (lit "details") (VStr []));
       (lit "errors", get d (lit "errors") (VInt 0));
       (lit "warnings", get d (lit "warnings") (VInt 0))]
  end.


(** *** Well-formed result sets

    What the round trip through JSON asks of a result set: keys are
    distinct (they are in any Python [dict]) and every string is made of
    Unicode scalar values, so that no code point is a lone surrogate
    (the decoder joins a high and a low surrogate into one code point). *)

Definition scalar_value (c : N) : bool :=
  ((c <? 55296) || ((57343 <? c) && (c <? 1114112)))%N.

Definition valid_str (s : str) : bool := forallb scalar_value s.

Definition valid_scalar (v : pyval) : bool :=
  match v with
  | VStr s => valid_str s
  | _ => true
  end.

Definition valid_item {V} (ok : V -> bool) (kv : str * V) : bool :=
  valid_str (fst kv) && ok (snd kv).

Definition valid_dict (d : dict) : bool :=
  forallb (valid_item valid_scalar) d.

Definition valid_object (obj : list (str * dict)) : bool :=
  forallb (valid_item valid_dict) obj.

Definition distinct_object (obj : list (str * dict)) : bool :=
  distinct_keys obj && forallb (fun kv => distinct_keys (snd kv)) obj.

Definition well_formed_results (results : result_set) : bool :=
  distinct_keys results
  && forallb (fun item =>
                valid_str (fst item)
                && match snd item with
                   | Plain _ => true
                   | Structured d => distinct_keys d && valid_dict d
                   end) results.

(** What follows a value in the encoder's output: a comma or a new line. *)
Definition delimited (rest : str) : Prop :=
  exists r, rest = 44%N :: r \/ rest = 10%N :: r.

Definition head_not_digit (rest : str) : Prop :=
  match rest with
  | [] => True
  | c :: _ => digit_value c = None
  end.

Definition dec_item {V} (dec : V -> json) (kv : str * V) : str * json :=
  (fst kv, dec (snd kv)).

(** The text [json.dumps] gives for [sample_results], line by line. *)
Definition quoted (s : string) : str := 34%N :: lit s ++ [34%N].
Definition sample_json : str :=
  join [10%N]
    [lit "{";
     lit "  " ++ quoted "lint" ++ lit ": {";
     lit "    " ++ quoted "status" ++ lit ": true";
     lit "  },";
     lit "  " ++ quoted "types" ++ lit ": {";
     lit "    " ++ quoted "status" ++ lit ": false,";
     lit "    " ++ quoted "errors" ++ lit ": 3,";
     lit "    " ++ quoted "warnings" ++ lit ": 1";
     lit "  }";
     lit "}"].


(** ** Environment resolver

    [_resolve_venv_dir], [venv_exists] and [ensure_virtualenv] of
    [utils.py], and [_update_path], [_add_site_packages] and
    [_activate_venv_if_requested] of [service.py].  A path is the string
    [str(path)] gives; the file system is read through [fs_exists]
    ([Path.exists]) and does not change during a call.  The state a call
    can change is [sys.executable], [os.environ] and [sys.path]. *)

Record process := {
  sys_executable : str;
  environ : list (str * str);
  sys_path : list str
}.

(** [os.environ.get(key)] *)
Fixpoint environ_get (env : list (str * str)) (key : str) : option str :=
  match env with
  | [] => None
  | (k, v) :: rest => if str_eqb k key then Some v else environ_get rest key
  end.

(** [a.startswith(b)] read the other way round: [prefix] begins [s]. *)
Fixpoint starts_with (s prefix : str) : bool :=
  match prefix, s with
  | [], _ => true
  | p :: prefix', c :: s' => (p =? c)%N && starts_with s' prefix'
  | _ :: _, [] => false
  end.

(** [needle in haystack] on strings: [needle] occurs as a substring. *)
Fixpoint str_in (needle haystack : str) : bool :=
  starts_with haystack needle
  || match haystack with
     | [] => false
     | _ :: rest => str_in needle rest
     end.

(** The library call [site.addsitedir(sitedir)], as far as [sys.path] is
    concerned: the directory is appended unless it is already known.  The
    [.pth] files of the directory are not modelled. *)
Definition addsitedir (sitedir : str) (p : process) : process :=
  if existsb (str_eqb sitedir) (sys_path p) then p
  else {| sys_executable := sys_executable p;
          environ := environ p;
          sys_path := sys_path p ++ [sitedir] |}.

Section Environment.

(** [platform.system() == "Windows"], [Path.exists], the project root and
    [f"{sys.version_info.major}.{sys.version_info.minor}"]. *)
Variable is_windows : bool.
Variable fs_exists : str -> bool.
Variable PROJECT_ROOT : str.
Variable python_version : str.

(** [parent / name] *)
Definition path_div (parent name : str) : str :=
  parent ++ (if is_windows then [92%N] else [47%N]) ++ name.

(** [_update_path(venv_bin, is_windows)] of [service.py] *)
Definition _update_path (venv_bin : str) (p : process) : process :=
  let path_sep := if is_windows then lit ";" else lit ":" in
  let current_path :=
    match environ_get (environ p) (lit "PATH") with
    | Some v => v
    | None => []
    end in
  let venv_bin_str := venv_bin in
  if negb (str_in venv_bin_str current_path)
  then {| sys_executable := sys_executable p;
          environ := setitem (environ p) (lit "PATH")
                       (venv_bin_str ++ path_sep ++ current_path);
          sys_path := sys_path p |}
  else p.

(** [venv_dir / lib_dir / f"python{python_version}" / "site-packages"] *)
Definition lib_site_packages (venv_dir lib_dir : str) : str :=
  path_div (path_div (path_div venv_dir lib_dir)
                     (lit "python" ++ python_version))
           (lit "site-packages").

(** One round of the loop over [lib] and [lib64]. *)
Definition add_lib_dir (venv_dir : str) (p : process) (lib_dir : str) : process :=
  let site_packages := lib_site_packages venv_dir lib_dir in
  if fs_exists site_packages then addsitedir site_packages p else p.

(** [_add_site_packages(venv_dir, is_windows)] of [service.py] *)
Definition _add_site_packages (venv_dir : str) (p : process) : process :=
  if is_windows then
    let site_packages :=
      path_div (path_div venv_dir (lit "Lib")) (lit "site-packages") in
    if fs_exists site_packages then addsitedir site_packages p else p
  else fold_left (add_lib_dir venv_dir) [lit "lib"; lit "lib64"] p.

Definition bin_dir (venv_dir : str) : str :=
  path_div venv_dir (if is_windows then lit "Scripts" else lit "bin").

Definition python_of (venv_bin : str) : str :=
  path_div venv_bin (if is_windows then lit "python.exe" else lit "python").

(** [_activate_venv_if_requested()] of [service.py] *)
Definition _activate_venv_if_requested (p : process) : process :=
  match environ_get (environ p) (lit "ENSURE_VIRTUALENV") with
  | Some flag =>
      if negb (str_eqb flag (lit "1")) then p
      else
        let venv_dir := path_div PROJECT_ROOT (lit ".venv") in
        if negb (fs_exists venv_dir) then p
        else
          let venv_bin := bin_dir venv_dir in
          let venv_python := python_of venv_bin in
          if negb (fs_exists venv_python) then p
          else
            let p1 := {| sys_executable := venv_python;
                         environ := environ p;
                         sys_path := sys_path p |} in
            _add_site_packages venv_dir (_update_path venv_bin p1)
  | None => p
  end.

(** [ensure_virtualenv()] of [utils.py], which repeats the three steps in
    line. *)
Definition ensure_virtualenv (p : process) : process :=
  let venv_dir := path_div PROJECT_ROOT (lit ".venv") in
  if negb (fs_exists venv_dir) then p
  else
    let venv_bin := bin_dir venv_dir in
    let venv_python := python_of venv_bin in
    if fs_exists venv_python then
      let p1 := {| sys_executable := venv_python;
                   environ := environ p;
                   sys_path := sys_path p |} in
      let path_sep := if is_windows then lit ";" else lit ":" in
      let current_path :=
        match environ_get (environ p1) (lit "PATH") with
        | Some v => v
        | None => []
        end in
      let venv_bin_str := venv_bin in
      let p2 :=
        if negb (str_in venv_bin_str current_path)
        then {| sys_executable := sys_executable p1;
                environ := setitem (environ p1) (lit "PATH")
                             (venv_bin_str ++ path_sep ++ current_path);
                sys_path := sys_path p1 |}
        else p1 in
      if is_windows then
        let site_packages :=
          path_div (path_div venv_dir (lit "Lib")) (lit "site-packages") in
        if fs_exists site_packages then addsitedir site_packages p2 else p2
      else
        fold_left
          (fun q lib_dir =>
             let site_packages :=
               path_div (path_div (path_div venv_dir lib_dir)
                                  (lit "python" ++ python_version))
                        (lit "site-packages") in
             if fs_exists site_packages then addsitedir site_packages q else q)
          [lit "lib"; lit "lib64"] p2
    else p.

(** [_resolve_venv_dir()] *)
Definition _resolve_venv_dir : str :=
  let preferred_names := [lit ".venv"; lit "venv"] in
  match find (fun name => fs_exists (path_div PROJECT_ROOT name)) preferred_names with
  | Some name => path_div PROJECT_ROOT name
  | None => path_div PROJECT_ROOT (lit ".venv")
  end.

Definition VENV_DIR : str := _resolve_venv_dir.
Definition VENV_BIN : str := bin_dir VENV_DIR.
Definition PYTHON : str := python_of VENV_BIN.

(** [venv_exists()] *)
Definition venv_exists : bool := fs_exists VENV_DIR && fs_exists PYTHON.

(** The activation has already registered [lib_dir]'s site-packages
    directory, if there is one. *)
Definition site_dir_known (venv_dir lib_dir : str) (q : process) : Prop :=
  fs_exists (lib_site_packages venv_dir lib_dir) = true ->
  existsb (str_eqb (lib_site_packages venv_dir lib_dir)) (sys_path q) = true.

(** The state after the three steps of an activation that passes its
    checks. *)
Definition activated (p : process) : process :=
  let venv_dir := path_div PROJECT_ROOT (lit ".venv") in
  let venv_bin := bin_dir venv_dir in
  _add_site_packages venv_dir
    (_update_path venv_bin
       {| sys_executable := python_of venv_bin;
          environ := environ p; sys_path := sys_path p |}).

End Environment.

(** ** GitHub CLI check *)

Section GithubCli.

Variable ansi : bool.
Variable on_search_path : str -> bool.
Variable child_process : list str -> Z * str.


End GithubCli.

(** ** Generic table formatter *)

(** What a formatter is called with: the value of a dictionary entry, or a
    whole row of a list of rows. *)
Inductive formatter_arg :=
| OfValue (v : pyval)
| OfItem (item : dict).

(** A column definition: [col["header"]], [col.get("width")] and
    [col.get("formatter")].  A formatter returns the text [str(value)]
    shows. *)
Record column := {
  header : str;
  width : option nat;
  formatter : option (formatter_arg -> str -> str)
}.

Inductive table_data :=
| DataDict (d : dict)
| DataList (rows : list dict).

(** [col.get("width", 20)] *)
Definition width_of (col : column) : nat :=
  match width col with
  | Some w => w
  | None => 20%nat
  end.

(** [s.replace(" ", "_")] *)
Definition spaces_to_underscores (s : str) : str :=
  map (fun c => if (c =? 32)%N then 95%N else c) s.

Section FormatTable.

(** The library method [str.lower]. *)
Variable str_lower : str -> str.

(** The rows the formatters are applied to: [data_list]. *)
Inductive table_item :=
| KeyValue (key : str) (value : pyval)    (* [{"_key": key, "_value": value}] *)
| Row (item : dict).

Definition data_list (data : table_data) : list table_item :=
  match data with
  | DataDict d => map (fun kv => KeyValue (fst kv) (snd kv)) d
  | DataList rows => map Row rows
  end.

(** [str(value)[:width].ljust(width)] for one column of one row. *)
Definition cell (item : table_item) (col : column) : str :=
  let value :=
    match item with
    | KeyValue key v =>
        match formatter col with
        | Some f => f (OfValue v) key
        | None => py_str v
        end
    | Row r =>
        let key := spaces_to_underscores (str_lower (header col)) in
        match formatter col with
        | Some f => f (OfItem r) key
        | None => py_str (get r key (VStr []))
        end
    end in
  ljust (firstn (width_of col) value) (width_of col).

Definition separator (columns : list column) : str :=
  lit "+" ++ join (lit "+") (map (fun col => str_mul 45%N (width_of col + 2)) columns)
  ++ lit "+".

Definition header_row (columns : list column) : str :=
  lit "| " ++ join (lit " | ") (map (fun col => ljust (header col) (width_of col)) columns)
  ++ lit " |".

Definition data_row (columns : list column) (item : table_item) : str :=
  lit "| " ++ join (lit " | ") (map (cell item) columns) ++ lit " |".

(** The list [rows] that [format_table] joins. *)
Definition table_rows (data : table_data) (columns : list column) : list str :=
  [separator columns; header_row columns; separator columns]
  ++ map (data_row columns) (data_list data)
  ++ [separator columns].

(** [format_table(data, columns, empty_message)] *)
Definition format_table (data : table_data) (columns : list column)
    (empty_message : str) : str :=
  match data_list data with
  | [] => empty_message
  | _ :: _ => join [10%N] (table_rows data columns)
  end.

End FormatTable.

(** ** Sample inputs *)

(** A task that ends in [sys.exit(2)], a task whose generator is closed,
    and tasks with the four outcomes the dispatcher handles. *)
Definition exn_system_exit : exn :=
  {| exn_class := SystemExit; exn_message := lit "2" |}.
Definition exn_generator_exit : exn :=
  {| exn_class := GeneratorExit; exn_message := [] |}.
Definition exn_interrupt : exn :=
  {| exn_class := KeyboardInterrupt; exn_message := [] |}.
Definition exn_runtime : exn :=
  {| exn_class := UserClass "LintFailed" Exception; exn_message := lit "boom" |}.

Definition task_exit : task unit := fun _ => ([], Raises exn_system_exit).
Definition task_closed : task unit := fun _ => ([], Raises exn_generator_exit).
Definition task_interrupted : task unit := fun _ => ([], Raises exn_interrupt).
Definition task_failing : task unit := fun _ => ([], Raises exn_runtime).
Definition task_returning (v : pyval) : task unit := fun _ => ([], Returns v).

(** The conditions one of the two [except] clauses of the dispatcher
    catches. *)
Definition caught (e : exn) : bool :=
  isinstance e KeyboardInterrupt || isinstance e Exception.


(** The spec's result set
    [{"lint": true, "types": {"status": false, "errors": 3, "warnings": 1}}]. *)
Definition sample_results : result_set :=
  [(lit "lint", Plain (VBool true));
   (lit "types", Structured [(lit "status", VBool false);
                             (lit "errors", VInt 3);
                             (lit "warnings", VInt 1)])].

(** An [int] or a [bool], what [+=] on an [int] accepts. *)
Definition int_like (v : pyval) : bool :=
  match v with
  | VInt _ | VBool _ => true
  | _ => false
  end.

(** Every structured entry has counts that can be added up. *)
Definition numeric_counts (results : result_set) : bool :=
  forallb (fun item =>
             match snd item with
             | Structured d =>
                 int_like (get d (lit "errors") (VInt 0))
                 && int_like (get d (lit "warnings") (VInt 0))
             | Plain _ => true
             end) results.


(** A structured entry whose details text has 51 characters. *)
Definition long_details : str := repeat 120%N 51.
Definition long_entry : dict :=
  [(lit "status", VBool true); (lit "details", VStr long_details)].

(** The spec's words for the details cell: "capped at 50 characters,
    truncating longer content without an ellipsis marker". *)
Definition spec_details_cell (details : str) : str := firstn 50 details.

(** A structured entry with counts and a details text of its own, and one
    without a [status] key. *)
Definition counted_entry : dict :=
  [(lit "status", VBool false); (lit "details", VStr (lit "see log"));
   (lit "errors", VInt 3); (lit "warnings", VInt 0)].
Definition statusless_entry : dict := [(lit "details", VStr (lit "skipped"))].




(** [os.environ.get("PATH", "")] *)
Definition current_path (p : process) : str :=
  match environ_get (environ p) (lit "PATH") with
  | Some v => v
  | None => []
  end.

(** ** Reading a result set entry by entry

    What one entry contributes to the summary: its status, and its counts
    read as integers ([bool] is a subclass of [int]). *)

Definition int_value (v : pyval) : Z :=
  match v with
  | VInt z => z
  | VBool b => Z.b2z b
  | _ => 0
  end.

Definition entry_status (r : tool_result) : bool :=
  match r with
  | Structured d => truthy (get d (lit "status") (VBool false))
  | Plain v => truthy v
  end.

Definition entry_errors (r : tool_result) : Z :=
  match r with
  | Structured d => int_value (get d (lit "errors") (VInt 0))
  | Plain _ => 0
  end.

Definition entry_warnings (r : tool_result) : Z :=
  match r with
  | Structured d => int_value (get d (lit "warnings") (VInt 0))
  | Plain _ => 0
  end.

Definition sum_over (f : tool_result -> Z) (results : result_set) : Z :=
  fold_right Z.add 0 (map (fun item => f (snd item)) results).

Definition count_passed (results : result_set) : Z :=
  sum_over (fun r => Z.b2z (entry_status r)) results.

(** The rational number [100 * passed / total] of a summary (0 when there
    is no entry): the exact value that [success_rate] approximates. *)
Definition exact_rate (s : summary) : Q :=
  if total s >? 0
  then (inject_Z (passed s) / inject_Z (total s) * inject_Z 100)%Q
  else 0%Q.

(** [100 * passed / total] as Python evaluates it on two [int]s: the
    product is an exact [int], the quotient is rounded once. *)
Definition spec_success_rate (passed total : Z) : float :=
  int_truediv (100 * passed) total.

(** A result set of [n] plain results [tool0], [tool1], ... of which the
    first [p] passed. *)
Definition graded_results (p n : nat) : result_set :=
  map (fun i => (lit "tool" ++ str_of_int (Z.of_nat i), Plain (VBool (i <? p)%nat)))
      (seq 0 n).

(** Every entry has a details value that the format specification [<50]
    accepts: anything but [None]. *)
Definition renderable (results : result_set) : bool :=
  forallb (fun item =>
             match snd (row_fields (snd item)) with
             | VNone => false
             | _ => true
             end) results.

(** The header line the table starts with. *)
Definition table_header (tool_width : nat) (show_status : bool) : str :=
  let header := ljust (lit "Tool") tool_width in
  let header :=
    if show_status then header ++ lit " " ++ ljust (lit "Status") 10
    else header in
  header ++ lit " " ++ ljust (lit "Details") details_width.

(** ** Sample inputs for the further properties *)

(** A project at [/proj] whose environment is called [venv]. *)
Definition venv_only (path : str) : bool :=
  str_eqb path (lit "/proj/venv") || str_eqb path (lit "/proj/venv/bin/python").

(** A project at [/proj] with [.venv] and a [lib] site-packages
    directory. *)
Definition dot_venv (path : str) : bool :=
  str_eqb path (lit "/proj/.venv")
  || str_eqb path (lit "/proj/.venv/bin/python")
  || str_eqb path (lit "/proj/.venv/lib/python3.12/site-packages").

Definition sample_process : process :=
  {| sys_executable := lit "/usr/bin/python3";
     environ := [(lit "HOME", lit "/home/dev");
                 (lit "PATH", lit "/usr/bin:/bin");
                 (lit "ENSURE_VIRTUALENV", lit "1")];
     sys_path := [lit "/usr/lib/python3.12"] |}.

(** [sample_results] with its two entries swapped. *)
Definition sample_results_swapped : result_set :=
  [(lit "types", Structured [(lit "status", VBool false);
                             (lit "errors", VInt 3);
                             (lit "warnings", VInt 1)]);
   (lit "lint", Plain (VBool true))].

(** Entries whose count is not a number, and whose details are [None]. *)
Definition uncounted_entry : dict := [(lit "status", VBool true); (lit "errors", VNone)].
Definition undetailed_entry : dict := [(lit "status", VBool true); (lit "details", VNone)].

(** Two columns, the second with a header wider than the column. *)
Definition sample_columns : list column :=
  [{| header := lit "Name"; width := Some 8%nat; formatter := None |};
   {| header := lit "Description"; width := Some 5%nat; formatter := None |}].

(** * Properties *)

(** ** Command dispatcher *)

Lemma run_service_command_returns ansi {Args} (t : task Args) a out v :
  t a = (out, Returns v) ->
  run_service_command ansi t a = (out, Returns (if truthy v then 0 else 1)).
Proof. intros H. unfold run_service_command. now rewrite H. Qed.

Lemma run_service_command_raises ansi {Args} (t : task Args) a out e :
  t a = (out, Raises e) ->
  run_service_command ansi t a =
    if isinstance e KeyboardInterrupt then
      (out ++ [print_warning ansi cancel_notice], Returns 130)
    else if isinstance e Exception then
      (out ++ [print_error ansi (lit "Error: " ++ exn_message e); PrintExc e],
       Returns 1)
    else (out, Raises e).
Proof. intros H. unfold run_service_command. now rewrite H. Qed.

(** C1, as the claim states it, fails: a task that raises [SystemExit]
    (which is not a user interruption) does not give exit code 1; the
    condition leaves the dispatcher and nothing is printed. *)
Lemma dispatcher_system_exit_not_exit_1 :
  isinstance exn_system_exit KeyboardInterrupt = false /\
  run_service_command true task_exit tt = ([], Raises exn_system_exit) /\
  snd (run_service_command true task_exit tt) <> Returns 1.
Proof. repeat split. discriminate. Qed.

(** C1 (amended): the dispatcher returns 0 when the task returns a true
    value and 1 when it returns a false one; when the task raises a user
    interruption it prints the one cancellation notice, no trace, and
    returns 130; when the task raises any other condition derived from
    [Exception] it prints an error line and the trace and returns 1. *)
Theorem dispatcher_exit_codes ansi {Args} (t : task Args) a out r
    (Hrun : t a = (out, r)) :
  (forall v, r = Returns v -> truthy v = true ->
     run_service_command ansi t a = (out, Returns 0)) /\
  (forall v, r = Returns v -> truthy v = false ->
     run_service_command ansi t a = (out, Returns 1)) /\
  (forall e, r = Raises e -> isinstance e KeyboardInterrupt = true ->
     run_service_command ansi t a =
       (out ++ [print_warning ansi cancel_notice], Returns 130) /\
     existsb is_trace [print_warning ansi cancel_notice] = false) /\
  (forall e, r = Raises e -> isinstance e KeyboardInterrupt = false ->
     isinstance e Exception = true ->
     run_service_command ansi t a =
       (out ++ [print_error ansi (lit "Error: " ++ exn_message e); PrintExc e],
        Returns 1)).
Proof.
  repeat split; intros; subst r.
  - rewrite (run_service_command_returns ansi t a out v Hrun).
    now rewrite H0.
  - rewrite (run_service_command_returns ansi t a out v Hrun).
    now rewrite H0.
  - rewrite (run_service_command_raises ansi t a out e Hrun).
    now rewrite H0.
  - rewrite (run_service_command_raises ansi t a out e Hrun).
    now rewrite H0, H1.
Qed.

Lemma dispatcher_exit_codes_witness :
  run_service_command true (task_returning (VBool true)) tt = ([], Returns 0) /\
  run_service_command true (task_returning (VBool false)) tt = ([], Returns 1) /\
  run_service_command true task_interrupted tt =
    ([print_warning true cancel_notice], Returns 130) /\
  run_service_command true task_failing tt =
    ([print_error true (lit "Error: boom"); PrintExc exn_runtime], Returns 1).
Proof.
  split; [|split; [|split]].
  - exact (proj1 (dispatcher_exit_codes true (task_returning (VBool true)) tt
                    [] (Returns (VBool true)) eq_refl)
             (VBool true) eq_refl eq_refl).
  - exact (proj1 (proj2 (dispatcher_exit_codes true (task_returning (VBool false)) tt
                    [] (Returns (VBool false)) eq_refl))
             (VBool false) eq_refl eq_refl).
  - exact (proj1 (proj1 (proj2 (proj2 (dispatcher_exit_codes true task_interrupted tt
                    [] (Raises exn_interrupt) eq_refl)))
             exn_interrupt eq_refl eq_refl)).
  - exact (proj2 (proj2 (proj2 (dispatcher_exit_codes true task_failing tt
                    [] (Raises exn_runtime) eq_refl)))
             exn_runtime eq_refl eq_refl eq_refl).
Defined.

(** C7, as the claim states it, fails: [GeneratorExit] raised by the task
    is caught by neither [except] clause, so the call resolves to no exit
    code and the condition reaches the caller. *)
Lemma dispatcher_lets_generator_exit_through :
  run_service_command true task_closed tt = ([], Raises exn_generator_exit) /\
  ~ exists code, snd (run_service_command true task_closed tt) = Returns code.
Proof.
  split; [reflexivity|]. intros [code H]. discriminate H.
Qed.

(** C7 (amended): whenever the task returns, raises a user interruption
    or raises a condition derived from [Exception], the dispatcher
    returns one of 0, 1 and 130 and nothing reaches its caller; a
    condition outside these classes is the only thing that does. *)
Theorem dispatcher_total_on_caught ansi {Args} (t : task Args) a :
  (forall e, snd (t a) = Raises e -> caught e = true) ->
  exists code,
    snd (run_service_command ansi t a) = Returns code /\
    (code = 0 \/ code = 1 \/ code = 130).
Proof.
  intros Hc. unfold run_service_command.
  destruct (t a) as [out [v|e]]; simpl in *.
  - exists (if truthy v then 0 else 1). split; [reflexivity|].
    destruct (truthy v); auto.
  - specialize (Hc e eq_refl). unfold caught in Hc.
    destruct (isinstance e KeyboardInterrupt); simpl in *.
    + exists 130. auto.
    + rewrite Hc. exists 1. auto.
Qed.

Lemma dispatcher_total_on_caught_witness :
  exists code,
    snd (run_service_command true task_failing tt) = Returns code /\
    (code = 0 \/ code = 1 \/ code = 130).
Proof.
  apply (dispatcher_total_on_caught true task_failing tt).
  intros e H. injection H as <-. reflexivity.
Defined.

(** What reaches the caller of the dispatcher is exactly a condition
    that neither [except] clause catches. *)
Lemma dispatcher_propagates_iff ansi {Args} (t : task Args) a e :
  snd (run_service_command ansi t a) = Raises e <->
  snd (t a) = Raises e /\ caught e = false.
Proof.
  unfold run_service_command, caught.
  destruct (t a) as [out [v|e']]; simpl.
  - split; [discriminate | intros [H _]; discriminate H].
  - destruct (isinstance e' KeyboardInterrupt) eqn:Hk; simpl.
    + split; [discriminate|]. intros [H1 H2]. injection H1 as ->.
      rewrite Hk in H2. discriminate.
    + destruct (isinstance e' Exception) eqn:Hx; simpl.
      * split; [discriminate|]. intros [H1 H2]. injection H1 as ->.
        rewrite Hk, Hx in H2. discriminate.
      * split.
        -- intros H. injection H as ->. rewrite Hk, Hx. now split.
        -- intros [H _]. now injection H as ->.
Qed.

(** ** Summary *)

Lemma bind_returns {A B} (m : outcome A) (f : A -> outcome B) b :
  bind m f = Returns b -> exists a, m = Returns a /\ f a = Returns b.
Proof. destruct m as [a|e]; simpl; [eauto | discriminate]. Qed.

Lemma iadd_int_like acc v :
  int_like v = true -> exists z, iadd acc v = Returns z.
Proof. destruct v; simpl; try discriminate; eauto. Qed.

Lemma summarize_step_counts c r c' :
  summarize_step c r = Returns c' ->
  c_passed c' + c_failed c' = c_passed c + c_failed c + 1.
Proof.
  destruct r as [v|d]; simpl.
  - destruct (truthy v); intros H; injection H as <-; simpl; lia.
  - intros H.
    apply bind_returns in H as (errs & _ & H).
    apply bind_returns in H as (warns & _ & H).
    destruct (truthy _); injection H as <-; simpl; lia.
Qed.

Lemma summarize_loop_counts items : forall c c',
  summarize_loop items c = Returns c' ->
  c_passed c' + c_failed c' =
    c_passed c + c_failed c + Z.of_nat (length items).
Proof.
  induction items as [|[tool r] rest IH]; intros c c' H.
  - injection H as <-. simpl. lia.
  - cbn [summarize_loop] in H.
    apply bind_returns in H as (c1 & Hstep & Hrest).
    apply summarize_step_counts in Hstep.
    apply IH in Hrest.
    change (length ((tool, r) :: rest)) with (S (length rest)). lia.
Qed.

Lemma summarize_loop_total items : forall c,
  numeric_counts items = true -> exists c', summarize_loop items c = Returns c'.
Proof.
  induction items as [|[tool r] rest IH]; intros c Hn.
  - now exists c.
  - cbn [numeric_counts forallb snd] in Hn.
    apply andb_prop in Hn as [Hr Hrest].
    cbn [summarize_loop].
    assert (exists c1, summarize_step c r = Returns c1) as [c1 ->].
    { destruct r as [v|d]; simpl.
      - destruct (truthy v); eauto.
      - apply andb_prop in Hr as [He Hw].
        destruct (iadd_int_like (c_errors c) _ He) as [errs ->].
        destruct (iadd_int_like (c_warnings c) _ Hw) as [warns ->].
        simpl. destruct (truthy _); eauto. }
    simpl. now apply IH.
Qed.

Lemma summarize_loop_app pre : forall post c,
  summarize_loop (pre ++ post) c =
    (c1 <- summarize_loop pre c ;; summarize_loop post c1).
Proof.
  induction pre as [|[tool r] pre IH]; intros post c.
  - reflexivity.
  - cbn [app summarize_loop].
    destruct (summarize_step c r) as [c1|e]; simpl; [apply IH | reflexivity].
Qed.

(** Two results that the loop body cannot tell apart give the same
    summary, wherever they stand in the result set. *)
Lemma summarize_results_ext pre k r r' post :
  (forall c, summarize_step c r = summarize_step c r') ->
  summarize_results (pre ++ (k, r) :: post) =
  summarize_results (pre ++ (k, r') :: post).
Proof.
  intros Hstep. unfold summarize_results.
  rewrite !length_app. cbn [length].
  rewrite !summarize_loop_app. cbn [summarize_loop].
  destruct (summarize_loop pre _) as [c1|e]; simpl; [|reflexivity].
  now rewrite Hstep.
Qed.

Lemma iadd_int_value acc v :
  int_like v = true -> iadd acc v = Returns (acc + int_value v).
Proof. destruct v; simpl; try discriminate; reflexivity. Qed.

Lemma summarize_step_closed c r :
  numeric_counts [(lit "", r)] = true ->
  summarize_step c r =
    Returns {| c_passed := c_passed c + Z.b2z (entry_status r);
               c_failed := c_failed c + (1 - Z.b2z (entry_status r));
               c_errors := c_errors c + entry_errors r;
               c_warnings := c_warnings c + entry_warnings r |}.
Proof.
  intros H. cbn [numeric_counts forallb snd] in H. rewrite andb_true_r in H.
  destruct r as [v|d]; cbn [summarize_step entry_status entry_errors entry_warnings].
  - destruct (truthy v); cbn [Z.b2z]; f_equal;
      destruct c; cbn; f_equal; lia.
  - apply andb_true_iff in H as [He Hw].
    rewrite (iadd_int_value _ _ He), (iadd_int_value _ _ Hw). cbn [bind].
    destruct (truthy _); cbn [Z.b2z]; f_equal; f_equal; lia.
Qed.

Lemma summarize_loop_closed items : forall c,
  numeric_counts items = true ->
  summarize_loop items c =
    Returns {| c_passed := c_passed c + count_passed items;
               c_failed := c_failed c + (Z.of_nat (length items) - count_passed items);
               c_errors := c_errors c + sum_over entry_errors items;
               c_warnings := c_warnings c + sum_over entry_warnings items |}.
Proof.
  induction items as [|[k r] items IH]; intros c H.
  - cbn. f_equal. destruct c; cbn; f_equal; lia.
  - cbn [numeric_counts forallb] in H. apply andb_true_iff in H as [Hr Hrest].
    cbn [summarize_loop].
    rewrite summarize_step_closed
      by (cbn [numeric_counts forallb snd] in *; now rewrite Hr).
    cbn [bind]. rewrite IH by exact Hrest.
    unfold count_passed, sum_over. cbn [map fold_right snd length c_passed c_failed c_errors c_warnings].
    f_equal. f_equal; lia.
Qed.

Lemma iadd_not_int_like acc v :
  int_like v = false ->
  exists e, iadd acc v = Raises e /\ exn_class e = TypeError.
Proof. destruct v; simpl; try discriminate; eauto. Qed.

Lemma summarize_loop_type_error items : forall c,
  numeric_counts items = false ->
  exists e, summarize_loop items c = Raises e /\ exn_class e = TypeError.
Proof.
  induction items as [|[k r] items IH]; intros c H; [discriminate|].
  cbn [numeric_counts forallb snd] in H. cbn [summarize_loop].
  destruct r as [v|d].
  - cbn [andb] in H. cbn [summarize_step].
    destruct (truthy v); cbn [bind]; now apply IH.
  - destruct (int_like (get d (lit "errors") (VInt 0))) eqn:He.
    + destruct (int_like (get d (lit "warnings") (VInt 0))) eqn:Hw.
      * cbn [andb] in H.
        rewrite summarize_step_closed
          by (cbn [numeric_counts forallb snd]; now rewrite He, Hw).
        cbn [bind]. now apply IH.
      * cbn [summarize_step]. rewrite (iadd_int_value _ _ He). cbn [bind].
        destruct (iadd_not_int_like (c_warnings c) _ Hw) as (e & -> & Hc).
        cbn [bind]. eauto.
    + cbn [summarize_step].
      destruct (iadd_not_int_like (c_errors c) _ He) as (e & -> & Hc).
      cbn [bind]. eauto.
Qed.

Lemma sum_over_app f l l' :
  sum_over f (l ++ l') = sum_over f l + sum_over f l'.
Proof.
  unfold sum_over. induction l as [|x l IH]; cbn [app map fold_right]; lia.
Qed.

Lemma sum_over_cons f k r l :
  sum_over f ((k, r) :: l) = f r + sum_over f l.
Proof. reflexivity. Qed.

(** An entry counts among the passed ones by its status, wherever it
    stands. *)
Lemma count_passed_insert pre k r post :
  count_passed (pre ++ (k, r) :: post) =
  count_passed (pre ++ post) + Z.b2z (entry_status r).
Proof.
  unfold count_passed. rewrite !sum_over_app, sum_over_cons. lia.
Qed.

Lemma numeric_counts_app l l' :
  numeric_counts (l ++ l') = numeric_counts l && numeric_counts l'.
Proof. apply forallb_app. Qed.

(** [summarize_results] returns only on a result set whose counts are
    numbers, and then [total], [passed] and [failed] are the entry-wise
    reading of the result set. *)
Lemma summarize_results_counts results s :
  summarize_results results = Returns s ->
  numeric_counts results = true /\
  total s = Z.of_nat (length results) /\
  passed s = count_passed results /\
  failed s = Z.of_nat (length results) - count_passed results.
Proof.
  intros H. destruct (numeric_counts results) eqn:Hn.
  - unfold summarize_results in H.
    rewrite summarize_loop_closed in H by exact Hn. cbn [bind] in H.
    injection H as <-. cbn. repeat split; lia.
  - unfold summarize_results in H.
    destruct (summarize_loop_type_error results zero_counters Hn) as (e & He & _).
    rewrite He in H. discriminate H.
Qed.

(** The product of two floats does not depend on their order. *)
Lemma float_mul_comm x y : float_mul x y = float_mul y x.
Proof.
  unfold float_mul.
  destruct x as [sx|sx| |sx mx ex], y as [sy|sy| |sy my ey];
    cbn [SFmul]; try reflexivity; try (now rewrite xorb_comm).
  now rewrite xorb_comm, Pos.mul_comm, Z.add_comm.
Qed.

(** C2, as the claim states it, fails: of 100 results of which 29 passed,
    [success_rate] is the float 8162774324609023 * 2^-48, printed
    28.999999999999996.  It is neither the float that [100 * passed / total]
    evaluates to, which is 29.0, nor the number [100 * passed / total],
    which is 29. *)
Lemma success_rate_is_not_the_exact_quotient :
  exists s x,
    summarize_results (graded_results 29 100) = Returns s /\
    total s = 100 /\
    passed s = 29 /\
    success_rate s = NFloat x /\
    x = S754_finite false 8162774324609023 (-48) /\
    spec_success_rate (passed s) (total s) = float_of_int 29 /\
    x <> spec_success_rate (passed s) (total s) /\
    ~ (float_value x == inject_Z 100 * inject_Z (passed s) / inject_Z (total s))%Q.
Proof.
  eexists. eexists.
  split; [vm_compute; reflexivity|].
  cbn [total passed success_rate].
  split; [reflexivity|]. split; [reflexivity|]. split; [reflexivity|].
  split; [reflexivity|]. split; [vm_compute; reflexivity|].
  split.
  - vm_compute. discriminate.
  - unfold Qeq. vm_compute. discriminate.
Qed.

(** C2 (amended): whenever [summarize_results] returns (and it does return
    on every result set whose counts are integers),
    [passed + failed = total]; the success rate is the [int] 0 when [total]
    is 0, and otherwise the float that [passed / total * 100] evaluates
    to: the quotient of the two counts rounded to binary64, times [100.0],
    rounded again.  That float is also [100 * (passed / total)], the order
    of the two factors being immaterial. *)
Theorem summarize_results_invariants results :
  (numeric_counts results = true ->
   exists s, summarize_results results = Returns s) /\
  (forall s, summarize_results results = Returns s ->
     passed s + failed s = total s /\
     (total s = 0 -> success_rate s = NInt 0) /\
     (total s > 0 ->
      success_rate s =
        NFloat (float_mul (int_truediv (passed s) (total s)) (float_of_int 100)) /\
      success_rate s =
        NFloat (float_mul (float_of_int 100) (int_truediv (passed s) (total s))))).
Proof.
  split.
  - intros Hn. unfold summarize_results.
    destruct (summarize_loop_total results zero_counters Hn) as [c Hc].
    rewrite Hc. simpl. eauto.
  - intros s H. unfold summarize_results in H.
    apply bind_returns in H as (c & Hloop & H).
    injection H as <-. cbn [total passed failed success_rate].
    apply summarize_loop_counts in Hloop. simpl in Hloop.
    split; [lia|]. split.
    + intros ->. reflexivity.
    + intros Hpos.
      destruct (Z.of_nat (length results) >? 0) eqn:Hgt; [|lia].
      split; [reflexivity|]. now rewrite float_mul_comm.
Qed.

Lemma summarize_results_invariants_witness :
  exists s,
    summarize_results sample_results = Returns s /\
    passed s + failed s = total s /\
    (total s > 0 ->
     success_rate s =
       NFloat (float_mul (int_truediv (passed s) (total s)) (float_of_int 100)) /\
     success_rate s =
       NFloat (float_mul (float_of_int 100) (int_truediv (passed s) (total s)))).
Proof.
  destruct (summarize_results_invariants sample_results) as [Htot Hinv].
  destruct (Htot eq_refl) as [s Hs].
  exists s. split; [exact Hs|].
  destruct (Hinv s Hs) as (H1 & _ & H3). now split.
Defined.

(** The spec's worked example: one of two passed, the rate is the float
    7036874417766400 * 2^-47, which is 50.0. *)
Example summarize_sample :
  summarize_results sample_results =
    Returns {| total := 2; passed := 1; failed := 1;
               success_rate := NFloat (S754_finite false 7036874417766400 (-47));
               total_errors := 3; total_warnings := 1 |} /\
  (float_value (S754_finite false 7036874417766400 (-47)) == inject_Z 50)%Q.
Proof. split; [vm_compute; reflexivity | unfold Qeq; vm_compute; reflexivity]. Qed.

Lemma get_cons k v (d : dict) key dflt :
  get ((k, v) :: d) key dflt = if str_eqb k key then v else get d key dflt.
Proof. reflexivity. Qed.

Lemma get_absent d key dflt :
  has_key d key = false -> get d key dflt = dflt.
Proof.
  induction d as [|[k v] d IH]; [reflexivity|].
  unfold has_key. cbn [existsb fst]. rewrite get_cons.
  destruct (str_eqb k key); [discriminate | exact IH].
Qed.

Lemma get_present d key x y v :
  get d key x = v -> v <> x -> get d key y = v.
Proof.
  induction d as [|[k w] d IH]; simpl.
  - congruence.
  - destruct (str_eqb k key); auto.
Qed.

(** C8: a plain boolean [b] and a structured entry [{status: b}] whose
    error and warning counts are zero (or absent) give the same summary,
    field by field, wherever the entry stands in the result set. *)
Theorem plain_and_structured_same_summary (b : bool) d pre k post :
  get d (lit "status") VNone = VBool b ->
  get d (lit "errors") (VInt 0) = VInt 0 ->
  get d (lit "warnings") (VInt 0) = VInt 0 ->
  summarize_results (pre ++ (k, Plain (VBool b)) :: post) =
  summarize_results (pre ++ (k, Structured d) :: post).
Proof.
  intros Hs He Hw. apply summarize_results_ext. intros c.
  unfold summarize_step.
  rewrite (get_present d (lit "status") VNone (VBool false) (VBool b) Hs)
    by discriminate.
  rewrite He, Hw. simpl. rewrite !Z.add_0_r. reflexivity.
Qed.

Lemma plain_and_structured_same_summary_witness :
  summarize_results [(lit "lint", Plain (VBool true))] =
  summarize_results
    [(lit "lint", Structured [(lit "status", VBool true); (lit "errors", VInt 0)])].
Proof.
  exact (plain_and_structured_same_summary true
           [(lit "status", VBool true); (lit "errors", VInt 0)]
           [] (lit "lint") [] eq_refl eq_refl eq_refl).
Defined.

(** ** Table *)

Lemma render_rows_app ansi tw show pre : forall post,
  render_rows ansi tw show (pre ++ post) =
    (a <- render_rows ansi tw show pre ;;
     b <- render_rows ansi tw show post ;;
     Returns (a ++ b)).
Proof.
  induction pre as [|[tool r] pre IH]; intros post; cbn [app render_rows].
  - simpl. now destruct (render_rows ansi tw show post).
  - destruct (render_row ansi tw show tool r) as [row|e]; simpl; [|reflexivity].
    rewrite IH.
    destruct (render_rows ansi tw show pre) as [a|e]; simpl; [|reflexivity].
    now destruct (render_rows ansi tw show post).
Qed.

Lemma render_rows_length ansi tw show items : forall rows,
  render_rows ansi tw show items = Returns rows -> length rows = length items.
Proof.
  induction items as [|[tool r] items IH]; intros rows H.
  - now injection H as <-.
  - cbn [render_rows] in H.
    apply bind_returns in H as (row & _ & H).
    apply bind_returns in H as (rest & Hrest & H).
    injection H as <-. simpl. f_equal. now apply IH.
Qed.

(** The row of an entry stands in the list of rows where the entry stands
    in the result set. *)
Lemma render_rows_nth ansi tw show pre k r post rows :
  render_rows ansi tw show (pre ++ (k, r) :: post) = Returns rows ->
  exists row,
    render_row ansi tw show k r = Returns row /\
    nth_error rows (length pre) = Some row.
Proof.
  rewrite render_rows_app. intros H.
  apply bind_returns in H as (a & Ha & H).
  apply bind_returns in H as (b & Hb & H).
  injection H as <-.
  cbn [render_rows] in Hb.
  apply bind_returns in Hb as (row & Hrow & Hb).
  apply bind_returns in Hb as (rest & _ & Hb).
  injection Hb as <-.
  exists row. split; [exact Hrow|].
  apply render_rows_length in Ha.
  rewrite nth_error_app2 by lia.
  rewrite Ha, Nat.sub_diag. reflexivity.
Qed.

(** The lines of the table are the title lines, the header, the rule and
    then one row per entry, in the order of the result set. *)
Lemma table_lines_nth ansi pre k r post title show lines :
  table_lines ansi (pre ++ (k, r) :: post) title show = Returns lines ->
  exists tw row,
    render_row ansi tw show k r = Returns row /\
    nth_error lines (length (title_lines title) + 2 + length pre) = Some row.
Proof.
  unfold table_lines. intros H.
  apply bind_returns in H as (longest & _ & H).
  apply bind_returns in H as (rows & Hrows & H).
  injection H as <-.
  apply render_rows_nth in Hrows as (row & Hrow & Hnth).
  exists (tool_width_of longest), row. split; [exact Hrow|].
  rewrite nth_error_app2 by lia.
  replace (length (title_lines title) + 2 + length pre - length (title_lines title))%nat
    with (S (S (length pre))) by lia.
  exact Hnth.
Qed.

Lemma render_row_structured ansi tw show k d :
  render_row ansi tw show k (Structured d) =
    (cell <- format_left (snd (row_fields (Structured d))) details_width ;;
     Returns (row_head ansi tw show k (fst (row_fields (Structured d)))
              ++ lit " " ++ cell)).
Proof. unfold render_row. now destruct (row_fields (Structured d)). Qed.

Lemma ljust_long s w : (w <= length s)%nat -> ljust s w = s.
Proof.
  intros H. unfold ljust.
  replace (w - length s)%nat with 0%nat by lia.
  apply app_nil_r.
Qed.

Lemma table_lines_shape ansi rs title show lines :
  table_lines ansi rs title show = Returns lines ->
  exists longest rows,
    max_len (map fst rs) = Returns longest /\
    render_rows ansi (tool_width_of longest) show rs = Returns rows /\
    lines = title_lines title
            ++ table_header (tool_width_of longest) show :: str_mul 45%N 70 :: rows.
Proof.
  unfold table_lines. intros H.
  apply bind_returns in H as (longest & Hm & H).
  apply bind_returns in H as (rows & Hr & H).
  injection H as <-. exists longest, rows. repeat split; auto.
  unfold table_header. now destruct show.
Qed.

(** What [format_results_table] returns is the lines joined by line
    breaks: the title lines, the header, the rule and one row per entry;
    the row of an entry stands where the entry stands in the result set. *)
Lemma format_results_table_row ansi pre k r post title show text :
  format_results_table ansi (pre ++ (k, r) :: post) title show = Returns text ->
  exists tw rows row,
    text = join [10%N] (title_lines title
                        ++ table_header tw show :: str_mul 45%N 70 :: rows) /\
    length rows = length (pre ++ (k, r) :: post) /\
    render_row ansi tw show k r = Returns row /\
    nth_error rows (length pre) = Some row.
Proof.
  unfold format_results_table. intros H.
  apply bind_returns in H as (lines & Hl & H). injection H as <-.
  apply table_lines_shape in Hl as (longest & rows & _ & Hr & ->).
  pose proof (render_rows_length _ _ _ _ _ Hr) as Hlen.
  apply render_rows_nth in Hr as (row & Hrow & Hnth).
  exists (tool_width_of longest), rows, row. auto.
Qed.

Lemma render_rows_total ansi tw show items :
  renderable items = true ->
  exists rows, render_rows ansi tw show items = Returns rows.
Proof.
  unfold renderable.
  induction items as [|[k r] items IH]; intros H; [eexists; reflexivity|].
  cbn [forallb snd] in H. apply andb_true_iff in H as [Hr Hrest].
  cbn [render_rows]. unfold render_row.
  destruct (row_fields r) as [status details]. cbn [snd] in Hr.
  destruct (IH Hrest) as [rows Hrows]. rewrite Hrows.
  destruct details; try discriminate; cbn [format_left bind]; eauto.
Qed.

(** [format_results_table] returns on every result set that is not empty
    and has no [None] in its details column. *)
Lemma format_results_table_total ansi rs title show :
  rs <> [] -> renderable rs = true ->
  exists text, format_results_table ansi rs title show = Returns text.
Proof.
  intros Hne Hr. unfold format_results_table, table_lines.
  destruct rs as [|[k r] rs]; [congruence|].
  cbn [map fst max_len bind].
  destruct (render_rows_total ansi (tool_width_of
              (fold_left Nat.max (map (@length N) (map fst rs)) (length k)))
              show _ Hr) as [rows Hrows].
  rewrite Hrows. cbn [bind]. eauto.
Qed.

Lemma renderable_insert pre k r post :
  renderable (pre ++ post) = true ->
  renderable [(k, r)] = true ->
  renderable (pre ++ (k, r) :: post) = true.
Proof.
  unfold renderable. rewrite !forallb_app. cbn [forallb].
  intros H1 H2. apply andb_true_iff in H1 as [-> ->].
  rewrite andb_true_r in H2. now rewrite H2.
Qed.

(** C3, as the claim states it, fails: a details text of 51 characters is
    rendered whole, so the row is not the one the truncated cell would
    give. *)
Lemma long_details_row_is_not_truncated :
  render_row true 20 true (lit "lint") (Structured long_entry) =
    Returns (row_head true 20 true (lit "lint") (VBool true)
             ++ lit " " ++ long_details) /\
  render_row true 20 true (lit "lint") (Structured long_entry) <>
    Returns (row_head true 20 true (lit "lint") (VBool true)
             ++ lit " " ++ spec_details_cell long_details).
Proof.
  split; [reflexivity|].
  intros H. apply (f_equal (fun o => match o with
                                     | Returns row => length row
                                     | Raises _ => 0%nat
                                     end)) in H.
  vm_compute in H. discriminate H.
Qed.

(** C3 (amended): a details text longer than 50 characters (of an entry
    whose counts do not override it) is rendered whole: the row is the
    tool and status columns, one space, and the entire text, with neither
    truncation nor ellipsis nor padding.  The text [format_results_table]
    returns has that row on the line of the entry. *)
Theorem long_details_rendered_whole ansi pre k d post title show s :
  get d (lit "details") (VStr []) = VStr s ->
  truthy (get d (lit "errors") (VInt 0)) = false ->
  truthy (get d (lit "warnings") (VInt 0)) = false ->
  (50 < length s)%nat ->
  (forall tw,
     render_row ansi tw show k (Structured d) =
       Returns (row_head ansi tw show k (get d (lit "status") (VBool false))
                ++ lit " " ++ s)) /\
  (forall lines,
     table_lines ansi (pre ++ (k, Structured d) :: post) title show = Returns lines ->
     exists tw,
       nth_error lines (length (title_lines title) + 2 + length pre) =
         Some (row_head ansi tw show k (get d (lit "status") (VBool false))
               ++ lit " " ++ s)) /\
  (forall text,
     format_results_table ansi (pre ++ (k, Structured d) :: post) title show
       = Returns text ->
     exists tw rows,
       text = join [10%N] (title_lines title
                           ++ table_header tw show :: str_mul 45%N 70 :: rows) /\
       length rows = length (pre ++ (k, Structured d) :: post) /\
       nth_error rows (length pre) =
         Some (row_head ansi tw show k (get d (lit "status") (VBool false))
               ++ lit " " ++ s)) /\
  (renderable (pre ++ post) = true ->
   exists text,
     format_results_table ansi (pre ++ (k, Structured d) :: post) title show
       = Returns text).
Proof.
  intros Hd He Hw Hlen.
  assert (Hrow : forall tw,
     render_row ansi tw show k (Structured d) =
       Returns (row_head ansi tw show k (get d (lit "status") (VBool false))
                ++ lit " " ++ s)).
  { intros tw. rewrite render_row_structured.
    cbn [row_fields]. rewrite He, Hw, Hd. cbn [orb fst snd format_left bind].
    rewrite ljust_long by (unfold details_width; lia). reflexivity. }
  split; [exact Hrow|]. split; [|split].
  - intros lines H.
    apply table_lines_nth in H as (tw & row & Hr & Hnth).
    exists tw. rewrite Hrow in Hr. injection Hr as <-. exact Hnth.
  - intros text H.
    apply format_results_table_row in H as (tw & rows & row & Ht & Hl & Hr & Hnth).
    exists tw, rows. rewrite Hrow in Hr. injection Hr as <-. auto.
  - intros Hrest. apply format_results_table_total; [now destruct pre|].
    apply renderable_insert; [exact Hrest|].
    unfold renderable. cbn [forallb snd row_fields].
    now rewrite He, Hw, Hd.
Qed.

Lemma long_details_rendered_whole_witness :
  render_row true 20 true (lit "lint") (Structured long_entry) =
    Returns (row_head true 20 true (lit "lint") (VBool true)
             ++ lit " " ++ long_details).
Proof.
  exact (proj1 (long_details_rendered_whole true [] (lit "lint") long_entry []
                  None true long_details eq_refl eq_refl eq_refl
                  (Nat.lt_succ_diag_r 50)) 20%nat).
Defined.

(** C5: a structured entry with a nonzero error count or a nonzero warning
    count is rendered with the details cell [Errors: N, Warnings: M]
    (padded to the column width), whatever its own details text is.  The
    text [format_results_table] returns has that row on the line of the
    entry, after the title lines, the header and the rule, and the entry
    itself never keeps the table from being returned. *)
Theorem counts_override_details ansi pre k d post title show n m :
  get d (lit "errors") (VInt 0) = VInt n ->
  get d (lit "warnings") (VInt 0) = VInt m ->
  n <> 0 \/ m <> 0 ->
  let cell := ljust (lit "Errors: " ++ str_of_int n
                     ++ lit ", Warnings: " ++ str_of_int m) 50 in
  let results := pre ++ (k, Structured d) :: post in
  (forall tw,
     render_row ansi tw show k (Structured d) =
       Returns (row_head ansi tw show k (get d (lit "status") (VBool false))
                ++ lit " " ++ cell)) /\
  (forall lines,
     table_lines ansi results title show = Returns lines ->
     exists tw,
       nth_error lines (length (title_lines title) + 2 + length pre) =
         Some (row_head ansi tw show k (get d (lit "status") (VBool false))
               ++ lit " " ++ cell)) /\
  (forall text,
     format_results_table ansi results title show = Returns text ->
     exists tw rows,
       text = join [10%N] (title_lines title
                           ++ table_header tw show :: str_mul 45%N 70 :: rows) /\
       length rows = length results /\
       nth_error rows (length pre) =
         Some (row_head ansi tw show k (get d (lit "status") (VBool false))
               ++ lit " " ++ cell)) /\
  (renderable (pre ++ post) = true ->
   exists text, format_results_table ansi results title show = Returns text).
Proof.
  intros He Hw Hnz cell results.
  assert (Hfields : row_fields (Structured d) =
            (get d (lit "status") (VBool false),
             VStr (lit "Errors: " ++ str_of_int n
                   ++ lit ", Warnings: " ++ str_of_int m))).
  { cbn [row_fields]. rewrite He, Hw.
    assert (truthy (VInt n) || truthy (VInt m) = true) as ->.
    { simpl. apply orb_true_iff.
      destruct Hnz as [H|H]; [left|right];
        apply negb_true_iff, Z.eqb_neq; exact H. }
    reflexivity. }
  assert (Hrow : forall tw,
     render_row ansi tw show k (Structured d) =
       Returns (row_head ansi tw show k (get d (lit "status") (VBool false))
                ++ lit " " ++ cell)).
  { intros tw. rewrite render_row_structured, Hfields. reflexivity. }
  split; [exact Hrow|]. split; [|split].
  - intros lines H.
    apply table_lines_nth in H as (tw & row & Hr & Hnth).
    exists tw. rewrite Hrow in Hr. injection Hr as <-. exact Hnth.
  - intros text H.
    apply format_results_table_row in H as (tw & rows & row & Ht & Hlen & Hr & Hnth).
    exists tw, rows. rewrite Hrow in Hr. injection Hr as <-. auto.
  - intros Hrest. apply format_results_table_total.
    + subst results. now destruct pre.
    + apply renderable_insert; [exact Hrest|].
      unfold renderable. cbn [forallb snd]. now rewrite Hfields.
Qed.

Lemma counts_override_details_witness :
  render_row true 20 true (lit "types") (Structured counted_entry) =
    Returns (row_head true 20 true (lit "types") (VBool false)
             ++ lit " " ++ ljust (lit "Errors: " ++ str_of_int 3
                                  ++ lit ", Warnings: " ++ str_of_int 0) 50) /\
  exists text,
    format_results_table true [(lit "types", Structured counted_entry)] None true
      = Returns text.
Proof.
  assert (Hnz : 3 <> 0 \/ 0 <> 0) by (left; discriminate).
  pose proof (counts_override_details true [] (lit "types") counted_entry []
                None true 3 0 eq_refl eq_refl Hnz) as H.
  split.
  - exact (proj1 H 20%nat).
  - exact (proj2 (proj2 (proj2 H)) eq_refl).
Defined.

(** The table of the counted sample, line by line: the header, the rule
    and the row with the counts in place of the entry's own details. *)
Example counted_sample_table :
  format_results_table false [(lit "types", Structured counted_entry)] None true =
    Returns (join [10%N]
      [ljust (lit "Tool") 20 ++ lit " " ++ ljust (lit "Status") 10
         ++ lit " " ++ ljust (lit "Details") 50;
       str_mul 45%N 70;
       ljust (lit "types") 20 ++ lit " " ++ ljust (10007%N :: lit " FAIL") 19
         ++ lit " " ++ ljust (lit "Errors: 3, Warnings: 0") 50]).
Proof. reflexivity. Qed.

(** C9: on the empty result set [format_results_table] raises (the
    maximum over the tool names has nothing to range over), while
    [summarize_results] returns a summary with [total = 0]. *)
Theorem empty_result_set ansi title show :
  (exists e, format_results_table ansi [] title show = Raises e /\
             exn_class e = ValueError) /\
  (exists s, summarize_results [] = Returns s /\ total s = 0).
Proof.
  split.
  - eexists. split; reflexivity.
  - eexists. split; reflexivity.
Qed.

Lemma row_fields_missing_status d :
  has_key d (lit "status") = false ->
  row_fields (Structured ((lit "status", VBool false) :: d)) =
  row_fields (Structured d) /\
  fst (row_fields (Structured d)) = VBool false.
Proof.
  intros H. cbn [row_fields]. rewrite !get_cons.
  change (str_eqb (lit "status") (lit "status")) with true.
  change (str_eqb (lit "status") (lit "details")) with false.
  change (str_eqb (lit "status") (lit "errors")) with false.
  change (str_eqb (lit "status") (lit "warnings")) with false.
  cbv iota. rewrite (get_absent d (lit "status") (VBool false) H).
  split; [reflexivity|].
  now destruct (truthy _ || truthy _).
Qed.

Lemma summarize_step_missing_status d c :
  has_key d (lit "status") = false ->
  summarize_step c (Structured ((lit "status", VBool false) :: d)) =
  summarize_step c (Structured d).
Proof.
  intros H. cbn [summarize_step]. rewrite !get_cons.
  change (str_eqb (lit "status") (lit "status")) with true.
  change (str_eqb (lit "status") (lit "errors")) with false.
  change (str_eqb (lit "status") (lit "warnings")) with false.
  cbv iota. now rewrite (get_absent d (lit "status") (VBool false) H).
Qed.

(** Two results with the same status and details give the same table,
    wherever they stand in the result set. *)
Lemma format_results_table_ext ansi pre k r r' post title show :
  row_fields r = row_fields r' ->
  format_results_table ansi (pre ++ (k, r) :: post) title show =
  format_results_table ansi (pre ++ (k, r') :: post) title show.
Proof.
  intros Hf. unfold format_results_table, table_lines.
  rewrite !map_app. cbn [map fst].
  destruct (max_len _) as [longest|e]; [|reflexivity]. cbn [bind].
  rewrite !render_rows_app. cbn [render_rows].
  assert (forall tw, render_row ansi tw show k r = render_row ansi tw show k r') as ->.
  { intros tw. unfold render_row. now rewrite Hf. }
  reflexivity.
Qed.

(** C10: a structured entry without a [status] key is handled, by
    [summarize_results] and by [format_results_table] alike, exactly as
    the same entry with [status: False]: it is counted as failed and its
    row shows the fail glyph; the missing key raises nothing.  In the
    summary the entry adds one to [total] and to [failed] and nothing to
    [passed]; in the text of the table the line of the entry is the tool
    name, the fail glyph and the details cell. *)
Theorem missing_status_means_failed ansi pre k d post title show :
  has_key d (lit "status") = false ->
  let d' := (lit "status", VBool false) :: d in
  let results := pre ++ (k, Structured d) :: post in
  summarize_results results =
    summarize_results (pre ++ (k, Structured d') :: post) /\
  format_results_table ansi results title show =
    format_results_table ansi (pre ++ (k, Structured d') :: post) title show /\
  (forall c c', summarize_step c (Structured d) = Returns c' ->
     c_passed c' = c_passed c /\ c_failed c' = c_failed c + 1) /\
  (forall c, int_like (get d (lit "errors") (VInt 0)) = true ->
     int_like (get d (lit "warnings") (VInt 0)) = true ->
     exists c', summarize_step c (Structured d) = Returns c') /\
  (forall tw,
     render_row ansi tw true k (Structured d) =
       (cell <- format_left (snd (row_fields (Structured d))) details_width ;;
        Returns (ljust k tw ++ lit " " ++ ljust (FAIL ansi) 19
                 ++ lit " " ++ cell))) /\
  (numeric_counts results = true ->
   exists s, summarize_results results = Returns s) /\
  (forall s, summarize_results results = Returns s ->
     exists s0,
       summarize_results (pre ++ post) = Returns s0 /\
       total s = total s0 + 1 /\
       passed s = passed s0 /\
       failed s = failed s0 + 1) /\
  (renderable results = true ->
   exists text, format_results_table ansi results title show = Returns text) /\
  (forall text,
     format_results_table ansi results title true = Returns text ->
     exists tw rows cell,
       text = join [10%N] (title_lines title
                           ++ table_header tw true :: str_mul 45%N 70 :: rows) /\
       length rows = length results /\
       format_left (snd (row_fields (Structured d))) details_width = Returns cell /\
       nth_error rows (length pre) =
         Some (ljust k tw ++ lit " " ++ ljust (FAIL ansi) 19 ++ lit " " ++ cell)).
Proof.
  intros H d' results. subst d' results.
  destruct (row_fields_missing_status d H) as [Hrf Hst].
  assert (Hrow : forall tw,
     render_row ansi tw true k (Structured d) =
       (cell <- format_left (snd (row_fields (Structured d))) details_width ;;
        Returns (ljust k tw ++ lit " " ++ ljust (FAIL ansi) 19
                 ++ lit " " ++ cell))).
  { intros tw. rewrite render_row_structured, Hst.
    unfold row_head. cbn [truthy].
    destruct (format_left _ _); cbn [bind]; [|reflexivity].
    now rewrite <- !app_assoc. }
  split; [|split; [|split; [|split; [|split; [|split; [|split; [|split]]]]]]].
  - apply summarize_results_ext. intros c.
    symmetry. now apply summarize_step_missing_status.
  - apply format_results_table_ext. now symmetry.
  - intros c c' H0. cbn [summarize_step] in H0.
    rewrite (get_absent d (lit "status") (VBool false) H) in H0.
    apply bind_returns in H0 as (errs & _ & H0).
    apply bind_returns in H0 as (warns & _ & H0).
    cbn [truthy] in H0. injection H0 as <-. cbn. split; reflexivity.
  - intros c He Hw. cbn [summarize_step].
    destruct (iadd_int_like (c_errors c) _ He) as [errs ->].
    destruct (iadd_int_like (c_warnings c) _ Hw) as [warns ->].
    cbn [bind]. eauto.
  - exact Hrow.
  - intros Hn. unfold summarize_results.
    destruct (summarize_loop_total _ zero_counters Hn) as [c Hc].
    rewrite Hc. cbn [bind]. eauto.
  - intros s Hs.
    apply summarize_results_counts in Hs as (Hn & Ht & Hp & Hf).
    rewrite numeric_counts_app in Hn. apply andb_true_iff in Hn as [Hpre Hpost].
    cbn [numeric_counts forallb] in Hpost.
    apply andb_true_iff in Hpost as [_ Hpost].
    assert (Hn0 : numeric_counts (pre ++ post) = true).
    { rewrite numeric_counts_app, Hpre. exact Hpost. }
    unfold summarize_results at 1.
    rewrite summarize_loop_closed by exact Hn0. cbn [bind].
    eexists. split; [reflexivity|].
    cbn [total passed failed c_passed c_failed zero_counters].
    rewrite Ht, Hp, Hf, count_passed_insert, !length_app.
    cbn [length entry_status].
    rewrite (get_absent d (lit "status") (VBool false) H).
    cbn [truthy Z.b2z]. lia.
  - intros Hr. apply format_results_table_total; [now destruct pre | exact Hr].
  - intros text Ht.
    apply format_results_table_row in Ht as (tw & rows & row & Ht & Hlen & Hr & Hnth).
    rewrite Hrow in Hr.
    apply bind_returns in Hr as (cell & Hcell & Hr). injection Hr as <-.
    exists tw, rows, cell. auto.
Qed.

Lemma missing_status_means_failed_witness :
  summarize_results [(lit "docs", Structured statusless_entry)] =
    summarize_results
      [(lit "docs", Structured ((lit "status", VBool false) :: statusless_entry))] /\
  render_row true 20 true (lit "docs") (Structured statusless_entry) =
    (cell <- format_left (snd (row_fields (Structured statusless_entry)))
               details_width ;;
     Returns (ljust (lit "docs") 20 ++ lit " " ++ ljust (FAIL true) 19
              ++ lit " " ++ cell)) /\
  (exists s, summarize_results [(lit "docs", Structured statusless_entry)] = Returns s) /\
  (exists text,
     format_results_table true [(lit "docs", Structured statusless_entry)] None true
       = Returns text).
Proof.
  pose proof (missing_status_means_failed true [] (lit "docs") statusless_entry []
                None true eq_refl) as H.
  split; [|split; [|split]].
  - exact (proj1 H).
  - exact (proj1 (proj2 (proj2 (proj2 (proj2 H)))) 20%nat).
  - exact (proj1 (proj2 (proj2 (proj2 (proj2 (proj2 H))))) eq_refl).
  - exact (proj1 (proj2 (proj2 (proj2 (proj2 (proj2 (proj2 (proj2 H))))))) eq_refl).
Defined.

(** The statusless sample is counted as failed and shown with the fail
    glyph, in the summary and in the text of the table. *)
Example statusless_sample :
  (exists s, summarize_results [(lit "docs", Structured statusless_entry)] = Returns s
             /\ total s = 1 /\ passed s = 0 /\ failed s = 1) /\
  render_row false 20 true (lit "docs") (Structured statusless_entry) =
    Returns (ljust (lit "docs") 20 ++ lit " "
             ++ ljust (10007%N :: lit " FAIL") 19
             ++ lit " " ++ ljust (lit "skipped") 50) /\
  format_results_table false [(lit "docs", Structured statusless_entry)] None true =
    Returns (join [10%N]
      [ljust (lit "Tool") 20 ++ lit " " ++ ljust (lit "Status") 10
         ++ lit " " ++ ljust (lit "Details") 50;
       str_mul 45%N 70;
       ljust (lit "docs") 20 ++ lit " " ++ ljust (10007%N :: lit " FAIL") 19
         ++ lit " " ++ ljust (lit "skipped") 50]).
Proof.
  split; [eexists; repeat split; vm_compute; reflexivity|].
  split; reflexivity.
Qed.

(** ** Process executor *)



(** ** JSON *)

(** Linear arithmetic with division and remainder by constants. *)
Ltac euclid := zify; Z.to_euclidean_division_equations; lia.

Lemma hex_value_digit d : (d < 16)%N -> hex_value (hex_digit d) = Some d.
Proof.
  intros H. unfold hex_value, hex_digit.
  destruct (d <? 10)%N eqn:E.
  - apply N.ltb_lt in E.
    replace ((48 <=? 48 + d) && (48 + d <=? 57))%N with true.
    + f_equal. lia.
    + symmetry. apply andb_true_iff. split; apply N.leb_le; lia.
  - apply N.ltb_ge in E.
    replace ((48 <=? 87 + d) && (87 + d <=? 57))%N with false.
    + replace ((97 <=? 87 + d) && (87 + d <=? 102))%N with true.
      * f_equal. lia.
      * symmetry. apply andb_true_iff. split; apply N.leb_le; lia.
    + symmetry. apply andb_false_iff. right. apply N.leb_gt. lia.
Qed.

(** Four hexadecimal digits read back as the number they were written
    from. *)
Lemma decode_hex4_hex4 n :
  (n < 65536)%N ->
  decode_hex4 (hex_digit (n / 4096 mod 16)) (hex_digit (n / 256 mod 16))
              (hex_digit (n / 16 mod 16)) (hex_digit (n mod 16)) = Some n.
Proof.
  intros H. unfold decode_hex4.
  rewrite !hex_value_digit by (apply N.mod_lt; discriminate).
  f_equal.
  euclid.
Qed.

Lemma scanstring_plain c tail :
  (c =? 34)%N = false -> (c =? 92)%N = false -> (c <? 32)%N = false ->
  scanstring (c :: tail) = cons_char c (scanstring tail).
Proof. intros H1 H2 H3. cbn [scanstring]. now rewrite H1, H2, H3. Qed.

Lemma scanstring_u h1 h2 h3 h4 u tail :
  decode_hex4 h1 h2 h3 h4 = Some u -> is_high_surrogate u = false ->
  scanstring (92 :: 117 :: h1 :: h2 :: h3 :: h4 :: tail)%N =
    cons_char u (scanstring tail).
Proof.
  intros H1 H2.
  change (scanstring (92 :: 117 :: h1 :: h2 :: h3 :: h4 :: tail)%N)
    with (match decode_hex4 h1 h2 h3 h4 with
          | None => None
          | Some uni =>
              if is_high_surrogate uni then
                match tail with
                | b :: u :: g1 :: g2 :: g3 :: g4 :: rest3 =>
                    if ((b =? 92) && (u =? 117))%N then
                      match decode_hex4 g1 g2 g3 g4 with
                      | None => None
                      | Some uni2 =>
                          if is_low_surrogate uni2 then
                            cons_char
                              (65536 + (uni - 55296) * 1024 + (uni2 - 56320))%N
                              (scanstring rest3)
                          else cons_char uni (scanstring tail)
                      end
                    else cons_char uni (scanstring tail)
                | _ => cons_char uni (scanstring tail)
                end
              else cons_char uni (scanstring tail)
          end).
  now rewrite H1, H2.
Qed.

Lemma scanstring_pair h1 h2 h3 h4 g1 g2 g3 g4 hi lo tail :
  decode_hex4 h1 h2 h3 h4 = Some hi -> is_high_surrogate hi = true ->
  decode_hex4 g1 g2 g3 g4 = Some lo -> is_low_surrogate lo = true ->
  scanstring (92 :: 117 :: h1 :: h2 :: h3 :: h4
              :: 92 :: 117 :: g1 :: g2 :: g3 :: g4 :: tail)%N =
    cons_char (65536 + (hi - 55296) * 1024 + (lo - 56320))%N (scanstring tail).
Proof.
  intros H1 H2 H3 H4.
  change (scanstring (92 :: 117 :: h1 :: h2 :: h3 :: h4
              :: 92 :: 117 :: g1 :: g2 :: g3 :: g4 :: tail)%N)
    with (match decode_hex4 h1 h2 h3 h4 with
          | None => None
          | Some uni =>
              if is_high_surrogate uni then
                match decode_hex4 g1 g2 g3 g4 with
                | None => None
                | Some uni2 =>
                    if is_low_surrogate uni2 then
                      cons_char
                        (65536 + (uni - 55296) * 1024 + (uni2 - 56320))%N
                        (scanstring tail)
                    else cons_char uni
                           (scanstring (92 :: 117 :: g1 :: g2 :: g3 :: g4 :: tail)%N)
                end
              else cons_char uni
                     (scanstring (92 :: 117 :: g1 :: g2 :: g3 :: g4 :: tail)%N)
          end).
  now rewrite H1, H2, H3, H4.
Qed.

(** The decoder undoes the escape of one character. *)
Lemma scanstring_escape c tail :
  scalar_value c = true ->
  scanstring (escape_char c ++ tail) = cons_char c (scanstring tail).
Proof.
  intros Hs. unfold escape_char.
  destruct (c =? 34)%N eqn:E34; [apply N.eqb_eq in E34; now subst|].
  destruct (c =? 92)%N eqn:E92; [apply N.eqb_eq in E92; now subst|].
  destruct (c =? 10)%N eqn:E10; [apply N.eqb_eq in E10; now subst|].
  destruct (c =? 13)%N eqn:E13; [apply N.eqb_eq in E13; now subst|].
  destruct (c =? 9)%N eqn:E9; [apply N.eqb_eq in E9; now subst|].
  destruct (c =? 8)%N eqn:E8; [apply N.eqb_eq in E8; now subst|].
  destruct (c =? 12)%N eqn:E12; [apply N.eqb_eq in E12; now subst|].
  destruct ((32 <=? c) && (c <=? 126))%N eqn:Ep.
  - apply andb_true_iff in Ep as [Hlo _]. apply N.leb_le in Hlo.
    apply scanstring_plain; auto. apply N.ltb_ge. exact Hlo.
  - unfold scalar_value in Hs.
    destruct (c <? 65536)%N eqn:Eb.
    + apply N.ltb_lt in Eb.
      unfold u_escape, hex4. cbn [app].
      apply scanstring_u.
      * now apply decode_hex4_hex4.
      * unfold is_high_surrogate.
        apply orb_true_iff in Hs as [H|H].
        -- apply N.ltb_lt in H. apply andb_false_iff. left. apply N.leb_gt. lia.
        -- apply andb_true_iff in H as [H _]. apply N.ltb_lt in H.
           apply andb_false_iff. right. apply N.leb_gt. lia.
    + apply N.ltb_ge in Eb.
      assert (Hc : (c < 1114112)%N).
      { apply orb_true_iff in Hs as [H|H].
        - apply N.ltb_lt in H. lia.
        - apply andb_true_iff in H as [_ H]. now apply N.ltb_lt in H. }
      set (hi := (55296 + (c - 65536) / 1024 mod 1024)%N).
      set (lo := (56320 + (c - 65536) mod 1024)%N).
      transitivity (cons_char (65536 + (hi - 55296) * 1024 + (lo - 56320))%N
                              (scanstring tail)).
      * apply scanstring_pair.
        -- apply decode_hex4_hex4. subst hi. euclid.
        -- unfold is_high_surrogate. apply andb_true_iff.
           split; apply N.leb_le; subst hi; euclid.
        -- apply decode_hex4_hex4. subst lo. euclid.
        -- unfold is_low_surrogate. apply andb_true_iff.
           split; apply N.leb_le; subst lo; euclid.
      * f_equal. subst hi lo. euclid.
Qed.

(** A string literal is read back as the string it encodes, up to its
    closing quote. *)
Lemma scanstring_roundtrip s : forall rest,
  forallb scalar_value s = true ->
  scanstring (flat_map escape_char s ++ 34%N :: rest) = Some (s, rest).
Proof.
  induction s as [|c s IH]; intros rest H.
  - reflexivity.
  - cbn [forallb] in H. apply andb_true_iff in H as [Hc Hs].
    cbn [flat_map]. rewrite <- app_assoc.
    rewrite scanstring_escape by exact Hc.
    now rewrite IH.
Qed.

Lemma read_digits_stop rest :
  head_not_digit rest -> read_digits rest = (Nil, rest).
Proof. destruct rest as [|c r]; simpl; [reflexivity | now intros ->]. Qed.

Lemma read_digits_cons c d rest :
  digit_value c = Some d ->
  read_digits (c :: rest) = let (u, r) := read_digits rest in (d u, r).
Proof. intros H. cbn [read_digits]. now rewrite H. Qed.

Lemma read_digits_digits u : forall rest,
  head_not_digit rest -> read_digits (uint_digits u ++ rest) = (u, rest).
Proof.
  induction u; intros rest H; cbn [uint_digits app];
    [now apply read_digits_stop | ..];
    (erewrite read_digits_cons by reflexivity); now rewrite IHu.
Qed.

Lemma uint_digits_head u :
  u <> Nil ->
  exists c t, uint_digits u = c :: t /\ (48 <= c <= 57)%N.
Proof.
  destruct u; intros H; [congruence|..]; cbn [uint_digits];
    eexists; eexists; (split; [reflexivity | lia]).
Qed.

Lemma to_int_nonnil z :
  match Z.to_int z with
  | Decimal.Pos u | Decimal.Neg u => u <> Nil
  end.
Proof.
  destruct z; simpl; try apply DecimalPos.Unsigned.to_uint_nonnil.
  discriminate.
Qed.

Lemma digit_not_minus c : (48 <= c <= 57)%N -> (c =? 45)%N = false.
Proof. intros H. apply N.eqb_neq. lia. Qed.

(** The decimal text of an integer is read back as that integer. *)
Lemma read_number_roundtrip z rest :
  head_not_digit rest ->
  read_number (str_of_int z ++ rest) = Some (z, rest).
Proof.
  intros H. pose proof (to_int_nonnil z) as Hn.
  pose proof (DecimalZ.of_to z) as Hz.
  unfold str_of_int. destruct (Z.to_int z) as [u|u].
  - destruct (uint_digits_head u Hn) as (c & t & Hu & Hc).
    unfold read_number. rewrite Hu. cbn [app].
    rewrite (digit_not_minus c Hc).
    change (c :: t ++ rest) with ((c :: t) ++ rest). rewrite <- Hu.
    rewrite read_digits_digits by exact H.
    destruct u; [congruence|..]; now rewrite Hz.
  - unfold read_number. cbn [app N.eqb Pos.eqb].
    rewrite read_digits_digits by exact H.
    destruct u; [congruence|..]; now rewrite Hz.
Qed.

Lemma delimited_head_not_digit rest : delimited rest -> head_not_digit rest.
Proof. intros [r [->| ->]]; reflexivity. Qed.

Lemma skip_ws_spaces n x : skip_ws (spaces n ++ x) = skip_ws x.
Proof. induction n; [reflexivity|]. exact IHn. Qed.

Lemma parse_value_ws fuel c x :
  is_ws c = true -> parse_value fuel (c :: x) = parse_value fuel x.
Proof.
  intros H. destruct fuel; [reflexivity|].
  cbn [parse_value skip_ws]. now rewrite H.
Qed.

Lemma parse_value_number f c t :
  c = 45%N \/ (48 <= c <= 57)%N ->
  parse_value (S f) (c :: t) =
    match read_number (c :: t) with
    | Some (z, r) => Some (JInt z, r)
    | None => None
    end.
Proof.
  intros H.
  assert (is_ws c = false) as Hw.
  { unfold is_ws. repeat (apply orb_false_iff; split); apply N.eqb_neq; lia. }
  assert ((c =? 123)%N = false) as H1 by (apply N.eqb_neq; lia).
  assert ((c =? 34)%N = false) as H2 by (apply N.eqb_neq; lia).
  assert ((110 =? c)%N = false) as H3 by (apply N.eqb_neq; lia).
  assert ((116 =? c)%N = false) as H4 by (apply N.eqb_neq; lia).
  assert ((102 =? c)%N = false) as H5 by (apply N.eqb_neq; lia).
  cbn [parse_value skip_ws]. rewrite Hw, H1, H2.
  change (strip_prefix (lit "null") (c :: t))
    with (if (110 =? c)%N then strip_prefix (lit "ull") t else None).
  change (strip_prefix (lit "true") (c :: t))
    with (if (116 =? c)%N then strip_prefix (lit "rue") t else None).
  change (strip_prefix (lit "false") (c :: t))
    with (if (102 =? c)%N then strip_prefix (lit "alse") t else None).
  now rewrite H3, H4, H5.
Qed.

Lemma parse_value_string f x :
  parse_value (S f) (34%N :: x) =
    match scanstring x with
    | Some (t, r) => Some (JStr t, r)
    | None => None
    end.
Proof. reflexivity. Qed.

(** A scalar followed by a comma or a new line is parsed back, with any
    positive fuel. *)
Lemma parse_value_scalar f v rest :
  valid_scalar v = true -> delimited rest ->
  parse_value (S f) (json_scalar v ++ rest) = Some (json_of_scalar v, rest).
Proof.
  intros Hv Hd. destruct v as [|[|]|z|s]; try reflexivity.
  - cbn [json_scalar json_of_scalar].
    pose proof (to_int_nonnil z) as Hn.
    assert (exists c t, str_of_int z = c :: t /\ (c = 45%N \/ (48 <= c <= 57)%N))
      as (c & t & Hz & Hc).
    { unfold str_of_int. destruct (Z.to_int z) as [u|u].
      - destruct (uint_digits_head u Hn) as (c & t & -> & Hc). eauto.
      - eauto. }
    pose proof (read_number_roundtrip z rest (delimited_head_not_digit _ Hd)) as Hr.
    rewrite Hz in *. cbn [app] in *.
    rewrite (parse_value_number f c _ Hc). now rewrite Hr.
  - cbn [json_scalar json_of_scalar valid_scalar] in *.
    unfold json_string. cbn [app]. rewrite <- app_assoc. cbn [app].
    rewrite parse_value_string. now rewrite scanstring_roundtrip.
Qed.

Lemma parse_members_item f key x v r3 :
  forall body,
  scanstring body = Some (key, 58%N :: 32%N :: x) ->
  parse_value f (32%N :: x) = Some (v, r3) ->
  parse_members (S f) (34%N :: body) =
    match skip_ws r3 with
    | [] => None
    | c3 :: r4 =>
        if (c3 =? 125)%N then Some ([(key, v)], r4)
        else if (c3 =? 44)%N then
          match parse_members f (skip_ws r4) with
          | Some (ms, r5) => Some ((key, v) :: ms, r5)
          | None => None
          end
        else None
    end.
Proof.
  intros body Hs Hv. cbn [parse_members].
  change ((34 =? 34)%N) with true. cbv iota. rewrite Hs.
  change (skip_ws (58%N :: 32%N :: x)) with (58%N :: 32%N :: x).
  change ((58 =? 58)%N) with true. cbv iota. now rewrite Hv.
Qed.

Lemma parse_value_object f X Y :
  skip_ws X = 34%N :: Y ->
  parse_value (S f) (123%N :: 10%N :: X) =
    match parse_members f (skip_ws X) with
    | Some (ms, r) => Some (JObject ms, r)
    | None => None
    end.
Proof.
  intros H. cbn [parse_value].
  change (skip_ws (123%N :: 10%N :: X)) with (123%N :: 10%N :: X).
  change ((123 =? 123)%N) with true. cbv iota.
  change (skip_ws (10%N :: X)) with (skip_ws X).
  now rewrite H.
Qed.

Section Members.

Variable V : Type.
Variable enc : V -> str.
Variable dec : V -> json.
Variable ok : V -> bool.
Variable need : V -> nat.

Hypothesis enc_dec : forall v fuel rest,
  ok v = true -> (need v <= fuel)%nat -> delimited rest ->
  parse_value fuel (32%N :: enc v ++ rest) = Some (dec v, rest).

(** The items of a non-empty object, written one per line at depth
    [S level] and closed at depth [level], are parsed back when the fuel
    covers the number of items and what each value needs. *)
Lemma parse_members_roundtrip level d : forall fuel rest,
  d <> [] ->
  forallb (valid_item ok) d = true ->
  (forall kv, In kv d -> (need (snd kv) + length d <= fuel)%nat) ->
  parse_members fuel
    (skip_ws (join (lit "," ++ [10%N]) (map (json_item enc (S level)) d)
              ++ 10%N :: spaces (2 * level) ++ 125%N :: rest)) =
    Some (map (dec_item dec) d, rest).
Proof.
  induction d as [|[k v] d IH]; intros fuel rest Hne Hok Hfuel; [congruence|].
  cbn [forallb] in Hok. apply andb_true_iff in Hok as [Hkv Hok].
  unfold valid_item in Hkv. cbn [fst snd] in Hkv.
  apply andb_true_iff in Hkv as [Hk Hv].
  assert (Hf : (need v + S (length d) <= fuel)%nat).
  { apply (Hfuel (k, v)). now left. }
  destruct fuel as [|fuel]; [lia|].
  destruct d as [|kv2 d].
  - cbn [map join]. unfold json_item at 1. cbn [fst snd].
    rewrite <- !app_assoc. rewrite skip_ws_spaces.
    unfold json_string. cbn [app]. rewrite <- !app_assoc. cbn [app].
    change (skip_ws (34%N :: ?x)) with (34%N :: x).
    erewrite parse_members_item.
    2:{ apply scanstring_roundtrip. exact Hk. }
    2:{ apply enc_dec; [exact Hv | simpl in Hf; lia | eexists; right; reflexivity]. }
    change (skip_ws (10%N :: ?x)) with (skip_ws x).
    rewrite skip_ws_spaces. reflexivity.
  - change (map (json_item enc (S level)) ((k, v) :: kv2 :: d))
      with (json_item enc (S level) (k, v) :: map (json_item enc (S level)) (kv2 :: d)).
    set (tl := map (json_item enc (S level)) (kv2 :: d)) in *.
    assert (Hj : join (lit "," ++ [10%N]) (json_item enc (S level) (k, v) :: tl) =
                 json_item enc (S level) (k, v) ++ (lit "," ++ [10%N])
                 ++ join (lit "," ++ [10%N]) tl).
    { subst tl. reflexivity. }
    rewrite Hj. clear Hj.
    unfold json_item at 1. cbn [fst snd].
    rewrite <- !app_assoc. rewrite skip_ws_spaces.
    unfold json_string. cbn [app]. rewrite <- !app_assoc. cbn [app].
    change (skip_ws (34%N :: ?x)) with (34%N :: x).
    erewrite parse_members_item.
    2:{ apply scanstring_roundtrip. exact Hk. }
    2:{ apply enc_dec; [exact Hv | simpl in Hf; lia | eexists; left; reflexivity]. }
    change (lit ",") with [44%N]. cbn [app].
    change (skip_ws (44%N :: 10%N :: ?x)) with (44%N :: 10%N :: x).
    change ((44 =? 125)%N) with false. change ((44 =? 44)%N) with true.
    cbv iota.
    change (skip_ws (10%N :: ?x)) with (skip_ws x).
    subst tl. rewrite IH.
    + reflexivity.
    + discriminate.
    + exact Hok.
    + intros kv Hin. specialize (Hfuel kv (or_intror Hin)).
      simpl in Hfuel |- *. lia.
Qed.

Lemma skip_ws_members_head level d tail :
  d <> [] ->
  exists Y,
    skip_ws (join (lit "," ++ [10%N]) (map (json_item enc level) d) ++ tail) =
      34%N :: Y.
Proof.
  destruct d as [|[k v] [|kv2 d]]; intros H; [congruence|..].
  - cbn [map join]. unfold json_item, json_string. cbn [fst snd].
    rewrite <- !app_assoc. rewrite skip_ws_spaces. cbn [app].
    eexists. reflexivity.
  - change (join (lit "," ++ [10%N]) (map (json_item enc level) ((k, v) :: kv2 :: d)))
      with (json_item enc level (k, v) ++ (lit "," ++ [10%N])
            ++ join (lit "," ++ [10%N]) (map (json_item enc level) (kv2 :: d))).
    unfold json_item at 1. unfold json_string. cbn [fst snd].
    rewrite <- !app_assoc. rewrite skip_ws_spaces. cbn [app].
    eexists. reflexivity.
Qed.

Lemma parse_object_roundtrip level d fuel rest :
  forallb (valid_item ok) d = true ->
  (forall kv, In kv d -> (need (snd kv) + length d < fuel)%nat) ->
  (0 < fuel)%nat ->
  parse_value fuel (json_object enc level d ++ rest) =
    Some (JObject (map (dec_item dec) d), rest).
Proof.
  intros Hok Hfuel Hpos.
  destruct fuel as [|fuel]; [lia|].
  destruct d as [|kv d]; [reflexivity|].
  unfold json_object.
  set (items := (kv :: d)) in *.
  change (lit "{") with [123%N]. change (lit "}") with [125%N].
  rewrite <- !app_assoc. cbn [app].
  destruct (skip_ws_members_head (S level) items
              (10%N :: spaces (2 * level) ++ 125%N :: rest))
    as [Y HY]; [subst items; discriminate|].
  rewrite (parse_value_object fuel _ Y).
  - rewrite parse_members_roundtrip; [reflexivity | subst items; discriminate
      | exact Hok | ].
    intros kv' Hin. specialize (Hfuel kv' Hin). lia.
  - exact HY.
Qed.

End Members.

Lemma parse_dict_roundtrip level d fuel rest :
  valid_dict d = true ->
  (length d + 1 < fuel)%nat ->
  parse_value fuel (json_object json_scalar level d ++ rest) =
    Some (json_of_dict d, rest).
Proof.
  intros Hv Hf.
  apply (parse_object_roundtrip pyval json_scalar json_of_scalar valid_scalar
           (fun _ => 1%nat)).
  - intros v [|f] r Hok Hn Hd; [lia|].
    rewrite parse_value_ws by reflexivity.
    now apply parse_value_scalar.
  - exact Hv.
  - intros kv _. lia.
  - lia.
Qed.

Lemma join_length_ge sep parts :
  (list_sum (map (@length N) parts) <= length (join sep parts))%nat.
Proof.
  induction parts as [|p [|q parts] IH]; [simpl; lia | simpl; lia |].
  change (join sep (p :: q :: parts)) with (p ++ sep ++ join sep (q :: parts)).
  rewrite !length_app.
  change (list_sum (map (@length N) (p :: q :: parts)))
    with (length p + list_sum (map (@length N) (q :: parts)))%nat.
  lia.
Qed.

Lemma list_sum_lower {A} (f : A -> nat) (h : A -> nat) l :
  (forall x, In x l -> (1 + h x <= f x)%nat) ->
  forall y, In y l -> (h y + length l <= list_sum (map f l))%nat.
Proof.
  induction l as [|x l IH]; intros Hle y Hy; [destruct Hy|].
  assert (Hl : (length l <= list_sum (map f l))%nat).
  { clear -Hle. induction l as [|z l IH]; [simpl; lia|].
    change (list_sum (map f (z :: l))) with (f z + list_sum (map f l))%nat.
    cbn [length].
    pose proof (Hle z (or_intror (or_introl eq_refl))).
    assert (length l <= list_sum (map f l))%nat.
    { apply IH. intros w [Hw|Hw]; apply Hle; [now left | right; now right]. }
    lia. }
  change (list_sum (map f (x :: l))) with (f x + list_sum (map f l))%nat.
  cbn [length].
  pose proof (Hle x (or_introl eq_refl)) as Hx.
  destruct Hy as [->|Hy].
  - lia.
  - specialize (IH (fun w Hw => Hle w (or_intror Hw)) y Hy). lia.
Qed.

Lemma json_item_length {V} (enc : V -> str) level kv :
  (1 + length (enc (snd kv)) <= length (json_item enc level kv))%nat.
Proof.
  unfold json_item, json_string. rewrite !length_app. simpl. lia.
Qed.

Lemma json_object_length {V} (enc : V -> str) (h : V -> nat) level d :
  (forall v, (h v <= length (enc v))%nat) ->
  forall kv, In kv d ->
  (h (snd kv) + length d + 4 <= length (json_object enc level d))%nat.
Proof.
  intros Henc kv Hin.
  destruct d as [|x d]; [destruct Hin|].
  unfold json_object. set (items := x :: d) in *.
  change (lit "{") with [123%N]. change (lit "}") with [125%N].
  rewrite !length_app. cbn [length].
  pose proof (join_length_ge (lit "," ++ [10%N]) (map (json_item enc (S level)) items)) as H.
  rewrite map_map in H.
  pose proof (list_sum_lower (fun kv => length (json_item enc (S level) kv))
                (fun kv => h (snd kv)) items) as Hs.
  assert (Hle : forall x, In x items ->
            (1 + h (snd x) <= length (json_item enc (S level) x))%nat).
  { intros y _. pose proof (json_item_length enc (S level) y).
    pose proof (Henc (snd y)). lia. }
  specialize (Hs Hle kv Hin).
  lia.
Qed.

Lemma json_dict_length level (d : dict) :
  (length d <= length (json_object json_scalar level d))%nat.
Proof.
  destruct d as [|x d]; [simpl; lia|].
  pose proof (json_object_length json_scalar (fun _ => 0%nat) level (x :: d)
                (fun _ => Nat.le_0_l _) x (or_introl eq_refl)) as H.
  cbn [length] in H |- *. lia.
Qed.

(** The fuel [json_loads] starts with is enough for the whole text. *)
Lemma parse_dumps_roundtrip obj :
  valid_object obj = true ->
  parse_value (S (length (json_dumps_indent2 obj))) (json_dumps_indent2 obj) =
    Some (json_of_results obj, []).
Proof.
  intros Hv. unfold json_dumps_indent2.
  rewrite <- (app_nil_r (json_object (json_object json_scalar 1) 0 obj)) at 2.
  apply (parse_object_roundtrip dict (json_object json_scalar 1) json_of_dict
           valid_dict (fun d => (length d + 2)%nat)).
  - intros d fuel rest Hok Hn Hd.
    rewrite parse_value_ws by reflexivity.
    apply parse_dict_roundtrip; [exact Hok | lia].
  - exact Hv.
  - intros kv Hin.
    pose proof (json_object_length (json_object json_scalar 1) (@length _) 0 obj
                  (json_dict_length 1) kv Hin).
    unfold dict, str in *. lia.
  - lia.
Qed.

Lemma str_eqb_sym a : forall b, str_eqb a b = str_eqb b a.
Proof.
  induction a as [|x a IH]; intros [|y b]; try reflexivity.
  cbn [str_eqb]. now rewrite N.eqb_sym, IH.
Qed.

Lemma has_key_app {V} (d d' : list (str * V)) k :
  has_key (d ++ d') k = has_key d k || has_key d' k.
Proof. unfold has_key. apply existsb_app. Qed.

Lemma has_key_in {V} (d : list (str * V)) k kv :
  has_key d k = false -> In kv d -> str_eqb (fst kv) k = false.
Proof.
  intros H Hin. destruct (str_eqb (fst kv) k) eqn:E; [|reflexivity].
  assert (has_key d k = true) as Ht.
  { unfold has_key. apply existsb_exists. eauto. }
  congruence.
Qed.

Lemma setitem_fresh {V} (d : list (str * V)) k v :
  has_key d k = false -> setitem d k v = d ++ [(k, v)].
Proof.
  induction d as [|[k' v'] d IH]; intros H; [reflexivity|].
  unfold has_key in H. cbn [existsb fst] in H.
  apply orb_false_iff in H as [Hk Hd].
  cbn [setitem app]. rewrite Hk. f_equal. now apply IH.
Qed.

(** Assigning distinct fresh keys one after the other appends them in
    order. *)
Lemma fold_setitem {V W} (f : W -> V) (l : list (str * W)) : forall acc,
  distinct_keys l = true ->
  (forall kv, In kv l -> has_key acc (fst kv) = false) ->
  fold_left (fun a kv => setitem a (fst kv) (f (snd kv))) l acc =
    acc ++ map (fun kv => (fst kv, f (snd kv))) l.
Proof.
  induction l as [|[k w] l IH]; intros acc Hd Hacc.
  - cbn. now rewrite app_nil_r.
  - cbn [distinct_keys] in Hd. apply andb_true_iff in Hd as [Hk Hd].
    apply negb_true_iff in Hk.
    cbn [fold_left map fst snd].
    rewrite setitem_fresh by (apply (Hacc (k, w)); now left).
    rewrite IH; [now rewrite <- app_assoc | exact Hd |].
    intros kv Hin. rewrite has_key_app.
    rewrite (Hacc kv (or_intror Hin)). cbn [orb].
    unfold has_key. cbn [existsb fst]. rewrite orb_false_r.
    rewrite str_eqb_sym. exact (has_key_in l k kv Hk Hin).
Qed.

Lemma json_results_map rs :
  distinct_keys rs = true ->
  json_results rs = map (fun item => (fst item, json_entry (snd item))) rs.
Proof.
  intros H. unfold json_results.
  now rewrite (fold_setitem json_entry rs []).
Qed.

Lemma to_dict_object members :
  to_dict (JObject members) =
    JObject (fold_left (fun acc kv => setitem acc (fst kv) (to_dict (snd kv)))
                       members []).
Proof. reflexivity. Qed.

Lemma has_key_map {V W} (f : V -> W) (l : list (str * V)) k :
  has_key (map (fun kv => (fst kv, f (snd kv))) l) k = has_key l k.
Proof.
  unfold has_key. induction l as [|kv l IH]; [reflexivity|].
  cbn [map existsb fst]. now rewrite IH.
Qed.

Lemma distinct_keys_map {V W} (f : V -> W) (l : list (str * V)) :
  distinct_keys (map (fun kv => (fst kv, f (snd kv))) l) = distinct_keys l.
Proof.
  induction l as [|[k v] l IH]; [reflexivity|].
  cbn [map distinct_keys fst snd]. now rewrite IH, has_key_map.
Qed.

Lemma to_dict_dict d :
  distinct_keys d = true -> to_dict (json_of_dict d) = json_of_dict d.
Proof.
  intros H. unfold json_of_dict. rewrite to_dict_object.
  rewrite (fold_setitem to_dict);
    [| rewrite distinct_keys_map; exact H | intros; reflexivity].
  cbn [app]. rewrite map_map. f_equal.
  apply map_ext. intros [k v]. cbn [fst snd]. now destruct v.
Qed.

Lemma to_dict_results obj :
  distinct_object obj = true -> to_dict (json_of_results obj) = json_of_results obj.
Proof.
  intros H. apply andb_true_iff in H as [Hk Hin].
  unfold json_of_results. rewrite to_dict_object.
  rewrite (fold_setitem to_dict);
    [| rewrite distinct_keys_map; exact Hk | intros; reflexivity].
  cbn [app]. rewrite map_map. f_equal.
  apply map_ext_in. intros [k d] Hd. cbn [fst snd]. f_equal.
  apply to_dict_dict.
  rewrite forallb_forall in Hin. exact (Hin (k, d) Hd).
Qed.

(** [json.loads(json.dumps(obj, indent=2)) == obj] for a dictionary of
    dictionaries of scalars. *)
Lemma json_loads_dumps obj :
  valid_object obj = true -> distinct_object obj = true ->
  json_loads (json_dumps_indent2 obj) = Some (json_of_results obj).
Proof.
  intros Hv Hd. unfold json_loads.
  rewrite parse_dumps_roundtrip by exact Hv.
  cbn [skip_ws]. now rewrite to_dict_results.
Qed.

Lemma well_formed_stored rs :
  well_formed_results rs = true ->
  let stored := map (fun item => (fst item, json_entry (snd item))) rs in
  valid_object stored = true /\ distinct_object stored = true.
Proof.
  intros H stored. subst stored.
  apply andb_true_iff in H as [Hk Hall].
  unfold valid_object, distinct_object.
  rewrite (distinct_keys_map json_entry rs), Hk. cbn [andb].
  rewrite !forallb_forall in *.
  split.
  - intros kv Hin. apply in_map_iff in Hin as ([k r] & <- & Hin).
    specialize (Hall _ Hin). cbn [fst snd] in *.
    apply andb_true_iff in Hall as [Hs Hr].
    unfold valid_item. cbn [fst snd]. rewrite Hs. cbn [andb].
    destruct r as [v|d]; [reflexivity|].
    now apply andb_true_iff in Hr as [_ Hr].
  - intros kv Hin. apply in_map_iff in Hin as ([k r] & <- & Hin).
    specialize (Hall _ Hin). cbn [fst snd] in *.
    apply andb_true_iff in Hall as [_ Hr].
    destruct r as [v|d]; [reflexivity|].
    now apply andb_true_iff in Hr as [Hr _].
Qed.

(** C4, as the claim states it, fails: a plain boolean entry is stored
    and serialised as the one-key object with [status] alone; it has no
    [details], [errors] or [warnings] key and is not the normalised
    structured shape, and parsing the text gives that one-key object
    back. *)
Lemma plain_entry_json_is_not_normalized :
  json_results [(lit "lint", Plain (VBool true))] =
    [(lit "lint", [(lit "status", VBool true)])] /\
  json_results [(lit "lint", Plain (VBool true))] <>
    [(lit "lint", spec_normalize (Plain (VBool true)))] /\
  has_key (json_entry (Plain (VBool true))) (lit "details") = false /\
  json_loads (format_results_json [(lit "lint", Plain (VBool true))]) =
    Some (JObject [(lit "lint", JObject [(lit "status", JBool true)])]).
Proof.
  split; [reflexivity|]. split; [|split; [reflexivity | vm_compute; reflexivity]].
  intros H. apply (f_equal (fun l => match l with
                                     | [(_, d)] => length d
                                     | _ => 0%nat
                                     end)) in H.
  vm_compute in H. discriminate H.
Qed.

(** C4 (amended): on a result set with distinct keys and strings of
    Unicode scalar values, [format_results_json] stores for every tool,
    in the order of the result set, the entry's own dictionary unchanged
    when it is structured and the one-key object [{status: bool(value)}]
    when it is plain (no [details], [errors] or [warnings] key is added);
    the text is that mapping written with two spaces of indentation per
    level, and parsing the text gives the stored mapping back. *)
Theorem format_results_json_roundtrip rs :
  well_formed_results rs = true ->
  let stored := map (fun item => (fst item, json_entry (snd item))) rs in
  json_results rs = stored /\
  format_results_json rs = json_object (json_object json_scalar 1) 0 stored /\
  json_loads (format_results_json rs) = Some (json_of_results stored).
Proof.
  intros H stored.
  destruct (well_formed_stored rs H) as [Hv Hd]. fold stored in Hv, Hd.
  assert (Hs : json_results rs = stored).
  { apply json_results_map. now apply andb_true_iff in H as [H _]. }
  unfold format_results_json. rewrite Hs.
  split; [reflexivity|]. split; [reflexivity|].
  now apply json_loads_dumps.
Qed.

Lemma format_results_json_roundtrip_witness :
  json_loads (format_results_json sample_results) =
    Some (json_of_results
            (map (fun item => (fst item, json_entry (snd item))) sample_results)).
Proof.
  exact (proj2 (proj2 (format_results_json_roundtrip sample_results eq_refl))).
Defined.

(** The spec's example, rendered: two spaces per level, keys in insertion
    order, the plain entry with its [status] key only. *)
Example format_results_json_sample :
  format_results_json sample_results = sample_json.
Proof. vm_compute. reflexivity. Qed.

(** * Further properties *)

(** ** Environment resolver *)

Lemma str_eqb_refl a : str_eqb a a = true.
Proof. induction a as [|x a IH]; [reflexivity|]. cbn [str_eqb]. now rewrite N.eqb_refl. Qed.

Lemma str_eqb_eq a : forall b, str_eqb a b = true -> a = b.
Proof.
  induction a as [|x a IH]; intros [|y b] H; try discriminate; [reflexivity|].
  cbn [str_eqb] in H. apply andb_true_iff in H as [Hx Hr].
  apply N.eqb_eq in Hx. f_equal; auto.
Qed.

Lemma starts_with_app v x : starts_with (v ++ x) v = true.
Proof.
  induction v as [|c v IH]; [now destruct x|].
  cbn [app starts_with]. now rewrite N.eqb_refl.
Qed.

Lemma str_in_app v x : str_in v (v ++ x) = true.
Proof.
  destruct v as [|c v]; [now destruct x|].
  cbn [app str_in].
  change (starts_with (c :: v ++ x) (c :: v)) with (starts_with ((c :: v) ++ x) (c :: v)).
  now rewrite starts_with_app.
Qed.

Lemma environ_get_setitem env k v :
  environ_get (setitem env k v) k = Some v.
Proof.
  induction env as [|[k' v'] env IH]; cbn [setitem environ_get].
  - now rewrite str_eqb_refl.
  - destruct (str_eqb k' k) eqn:E; cbn [environ_get]; rewrite E; auto.
Qed.

Lemma environ_get_setitem_other env k v k' :
  str_eqb k k' = false ->
  environ_get (setitem env k v) k' = environ_get env k'.
Proof.
  intros Hk. induction env as [|[k0 v0] env IH]; cbn [setitem environ_get].
  - now rewrite Hk.
  - destruct (str_eqb k0 k) eqn:E; cbn [environ_get].
    + apply str_eqb_eq in E. subst k0. now rewrite Hk.
    + now rewrite IH.
Qed.

Section EnvironmentProperties.
Variable is_windows : bool.
Variable fs_exists : str -> bool.
Variable PROJECT_ROOT : str.
Variable python_version : str.


Lemma update_path_contains venv_bin p :
  str_in venv_bin (current_path (_update_path is_windows venv_bin p)) = true.
Proof.
  unfold _update_path. fold (current_path p).
  destruct (str_in venv_bin (current_path p)) eqn:E; cbn [negb].
  - exact E.
  - unfold current_path at 1. cbn [environ].
    rewrite environ_get_setitem. apply str_in_app.
Qed.

Lemma update_path_fixed venv_bin p :
  str_in venv_bin (current_path p) = true -> _update_path is_windows venv_bin p = p.
Proof. intros H. unfold _update_path. fold (current_path p). now rewrite H. Qed.

(** X8: [_update_path] is idempotent; afterwards the search path contains
    the environment's binary directory, the previous search path is kept
    as its tail, and [sys.executable] and [sys.path] are untouched. *)
Theorem update_path_idempotent venv_bin p :
  _update_path is_windows venv_bin (_update_path is_windows venv_bin p) = _update_path is_windows venv_bin p /\
  str_in venv_bin (current_path (_update_path is_windows venv_bin p)) = true /\
  (exists added, current_path (_update_path is_windows venv_bin p) = added ++ current_path p) /\
  sys_executable (_update_path is_windows venv_bin p) = sys_executable p /\
  sys_path (_update_path is_windows venv_bin p) = sys_path p.
Proof.
  split; [|split; [|split; [|split]]].
  - apply update_path_fixed, update_path_contains.
  - apply update_path_contains.
  - unfold _update_path. fold (current_path p).
    destruct (str_in venv_bin (current_path p)); cbn [negb].
    + now exists [].
    + unfold current_path at 1. cbn [environ]. rewrite environ_get_setitem.
      eexists. rewrite app_assoc. reflexivity.
  - unfold _update_path. now destruct (negb _).
  - unfold _update_path. now destruct (negb _).
Qed.

Lemma addsitedir_known d p :
  existsb (str_eqb d) (sys_path p) = true -> addsitedir d p = p.
Proof. intros H. unfold addsitedir. now rewrite H. Qed.

Lemma addsitedir_adds d p :
  existsb (str_eqb d) (sys_path (addsitedir d p)) = true.
Proof.
  unfold addsitedir. destruct (existsb _ (sys_path p)) eqn:E; [exact E|].
  cbn [sys_path]. rewrite existsb_app. cbn [existsb].
  now rewrite str_eqb_refl, orb_true_r.
Qed.

Lemma addsitedir_keeps d d' p :
  existsb (str_eqb d') (sys_path p) = true ->
  existsb (str_eqb d') (sys_path (addsitedir d p)) = true.
Proof.
  intros H. unfold addsitedir. destruct (existsb (str_eqb d) _); [exact H|].
  cbn [sys_path]. rewrite existsb_app, H. reflexivity.
Qed.

Lemma addsitedir_frame d p :
  sys_executable (addsitedir d p) = sys_executable p /\
  environ (addsitedir d p) = environ p /\
  exists extra, sys_path (addsitedir d p) = sys_path p ++ extra.
Proof.
  unfold addsitedir. destruct (existsb _ _); cbn.
  - repeat split. exists []. now rewrite app_nil_r.
  - repeat split. eauto.
Qed.

Lemma add_lib_dir_adds venv_dir lib p :
  site_dir_known is_windows fs_exists python_version venv_dir lib (add_lib_dir is_windows fs_exists python_version venv_dir p lib).
Proof.
  intros H. unfold add_lib_dir. rewrite H. apply addsitedir_adds.
Qed.

Lemma add_lib_dir_keeps venv_dir lib lib' q :
  site_dir_known is_windows fs_exists python_version venv_dir lib q ->
  site_dir_known is_windows fs_exists python_version venv_dir lib (add_lib_dir is_windows fs_exists python_version venv_dir q lib').
Proof.
  intros Hk H. unfold add_lib_dir.
  destruct (fs_exists (lib_site_packages is_windows python_version venv_dir lib'));
    [apply addsitedir_keeps|]; now apply Hk.
Qed.

Lemma add_lib_dir_known venv_dir lib q :
  site_dir_known is_windows fs_exists python_version venv_dir lib q ->
  add_lib_dir is_windows fs_exists python_version venv_dir q lib = q.
Proof.
  intros Hk. unfold add_lib_dir.
  destruct (fs_exists _) eqn:E; [|reflexivity].
  now apply addsitedir_known, Hk.
Qed.

Lemma add_site_packages_unix venv_dir p :
  is_windows = false ->
  _add_site_packages is_windows fs_exists python_version venv_dir p =
    add_lib_dir is_windows fs_exists python_version venv_dir
      (add_lib_dir is_windows fs_exists python_version venv_dir p (lit "lib"))
      (lit "lib64").
Proof. intros W. unfold _add_site_packages. now rewrite W. Qed.

Lemma add_site_packages_windows venv_dir p :
  is_windows = true ->
  _add_site_packages is_windows fs_exists python_version venv_dir p =
    if fs_exists (path_div is_windows (path_div is_windows venv_dir (lit "Lib"))
                    (lit "site-packages"))
    then addsitedir (path_div is_windows (path_div is_windows venv_dir (lit "Lib"))
                       (lit "site-packages")) p
    else p.
Proof. intros W. unfold _add_site_packages. now rewrite W. Qed.

Lemma add_site_packages_idempotent venv_dir p :
  _add_site_packages is_windows fs_exists python_version venv_dir
    (_add_site_packages is_windows fs_exists python_version venv_dir p) =
  _add_site_packages is_windows fs_exists python_version venv_dir p.
Proof.
  assert (is_windows = true \/ is_windows = false) as [W|W]
    by (destruct is_windows; auto).
  - rewrite !(add_site_packages_windows venv_dir) by exact W.
    destruct (fs_exists _) eqn:E; [|reflexivity].
    apply addsitedir_known, addsitedir_adds.
  - rewrite !(add_site_packages_unix venv_dir) by exact W.
    set (q1 := add_lib_dir is_windows fs_exists python_version venv_dir p (lit "lib")).
    set (q2 := add_lib_dir is_windows fs_exists python_version venv_dir q1 (lit "lib64")).
    rewrite (add_lib_dir_known venv_dir (lit "lib") q2).
    + apply add_lib_dir_known. apply add_lib_dir_adds.
    + apply add_lib_dir_keeps. apply add_lib_dir_adds.
Qed.

Lemma add_lib_dir_frame venv_dir lib p :
  sys_executable (add_lib_dir is_windows fs_exists python_version venv_dir p lib)
    = sys_executable p /\
  environ (add_lib_dir is_windows fs_exists python_version venv_dir p lib)
    = environ p /\
  exists extra,
    sys_path (add_lib_dir is_windows fs_exists python_version venv_dir p lib)
      = sys_path p ++ extra.
Proof.
  unfold add_lib_dir. destruct (fs_exists _); [apply addsitedir_frame|].
  repeat split. exists []. now rewrite app_nil_r.
Qed.

Lemma add_site_packages_frame venv_dir p :
  sys_executable (_add_site_packages is_windows fs_exists python_version venv_dir p)
    = sys_executable p /\
  environ (_add_site_packages is_windows fs_exists python_version venv_dir p)
    = environ p /\
  exists extra,
    sys_path (_add_site_packages is_windows fs_exists python_version venv_dir p)
      = sys_path p ++ extra.
Proof.
  assert (is_windows = true \/ is_windows = false) as [W|W]
    by (destruct is_windows; auto).
  - rewrite (add_site_packages_windows venv_dir) by exact W.
    destruct (fs_exists _); [apply addsitedir_frame|].
    repeat split. exists []. now rewrite app_nil_r.
  - rewrite (add_site_packages_unix venv_dir) by exact W.
    set (q1 := add_lib_dir is_windows fs_exists python_version venv_dir p (lit "lib")).
    destruct (add_lib_dir_frame venv_dir (lit "lib") p) as (A1 & A2 & [x1 A3]).
    destruct (add_lib_dir_frame venv_dir (lit "lib64") q1) as (B1 & B2 & [x2 B3]).
    fold q1 in A1, A2, A3.
    repeat split; [congruence | congruence |].
    exists (x1 ++ x2). now rewrite B3, A3, app_assoc.
Qed.

Lemma process_eta p :
  {| sys_executable := sys_executable p; environ := environ p;
     sys_path := sys_path p |} = p.
Proof. now destruct p. Qed.

Lemma current_path_environ p q :
  environ p = environ q -> current_path p = current_path q.
Proof. unfold current_path. now intros ->. Qed.

Lemma activated_fixed p : activated is_windows fs_exists PROJECT_ROOT python_version
    (activated is_windows fs_exists PROJECT_ROOT python_version p) = activated is_windows fs_exists PROJECT_ROOT python_version p.
Proof.
  unfold activated at 1.
  set (venv_dir := path_div is_windows PROJECT_ROOT (lit ".venv")).
  set (venv_bin := bin_dir is_windows venv_dir).
  set (q := activated is_windows fs_exists PROJECT_ROOT python_version p).
  assert (Hq : q = _add_site_packages is_windows fs_exists python_version venv_dir
                 (_update_path is_windows venv_bin
                    {| sys_executable := python_of is_windows venv_bin;
                       environ := environ p; sys_path := sys_path p |}))
    by reflexivity.
  set (u := _update_path is_windows venv_bin
              {| sys_executable := python_of is_windows venv_bin;
                 environ := environ p; sys_path := sys_path p |}) in *.
  destruct (add_site_packages_frame venv_dir u) as (F1 & F2 & _).
  rewrite <- Hq in F1, F2.
  destruct (update_path_idempotent venv_bin
              {| sys_executable := python_of is_windows venv_bin;
                 environ := environ p; sys_path := sys_path p |})
    as (_ & U2 & _ & U4 & _).
  fold u in U2, U4. cbn [sys_executable] in U4.
  replace {| sys_executable := python_of is_windows venv_bin;
             environ := environ q; sys_path := sys_path q |} with q.
  - rewrite (update_path_fixed venv_bin q).
    + rewrite Hq. apply add_site_packages_idempotent.
    + rewrite (current_path_environ q u F2). exact U2.
  - rewrite <- (process_eta q) at 1. now rewrite F1, U4.
Qed.

Lemma activate_cases p :
  _activate_venv_if_requested is_windows fs_exists PROJECT_ROOT python_version p = p \/
  _activate_venv_if_requested is_windows fs_exists PROJECT_ROOT python_version p
    = activated is_windows fs_exists PROJECT_ROOT python_version p /\
  environ_get (environ p) (lit "ENSURE_VIRTUALENV") = Some (lit "1") /\
  fs_exists (path_div is_windows PROJECT_ROOT (lit ".venv")) = true /\
  fs_exists (python_of is_windows
               (bin_dir is_windows (path_div is_windows PROJECT_ROOT (lit ".venv"))))
    = true.
Proof.
  unfold _activate_venv_if_requested.
  destruct (environ_get _ _) as [flag|] eqn:Hf; [|now left].
  destruct (str_eqb flag (lit "1")) eqn:H1; cbn [negb]; [|now left].
  apply str_eqb_eq in H1. subst flag.
  destruct (fs_exists (path_div _ _ _)) eqn:Hd; cbn [negb]; [|now left].
  destruct (fs_exists (python_of _ _)) eqn:Hp; cbn [negb]; [|now left].
  right. repeat split.
Qed.

Lemma activated_environ_flag p key :
  str_eqb (lit "PATH") key = false ->
  environ_get (environ (activated is_windows fs_exists PROJECT_ROOT python_version p)) key = environ_get (environ p) key.
Proof.
  intros Hk. unfold activated.
  destruct (add_site_packages_frame
              (path_div is_windows PROJECT_ROOT (lit ".venv"))
              (_update_path is_windows
                 (bin_dir is_windows (path_div is_windows PROJECT_ROOT (lit ".venv")))
                 {| sys_executable :=
                      python_of is_windows
                        (bin_dir is_windows
                           (path_div is_windows PROJECT_ROOT (lit ".venv")));
                    environ := environ p; sys_path := sys_path p |}))
    as (_ & -> & _).
  unfold _update_path. destruct (negb _); cbn [environ]; [|reflexivity].
  now apply environ_get_setitem_other.
Qed.

(** X9: activating a second time changes nothing. *)
Theorem activate_idempotent p :
  _activate_venv_if_requested is_windows fs_exists PROJECT_ROOT python_version
    (_activate_venv_if_requested is_windows fs_exists PROJECT_ROOT python_version p) =
  _activate_venv_if_requested is_windows fs_exists PROJECT_ROOT python_version p.
Proof.
  destruct (activate_cases p) as [H|(H & Hf & Hd & Hp)].
  - now rewrite !H.
  - rewrite H. unfold _activate_venv_if_requested.
    rewrite (activated_environ_flag p (lit "ENSURE_VIRTUALENV")) by reflexivity.
    rewrite Hf. change (str_eqb (lit "1") (lit "1")) with true. cbn [negb].
    rewrite Hd, Hp. cbn [negb].
    apply activated_fixed.
Qed.

(** X10: an activation never changes an environment variable other than
    [PATH], never drops anything from [PATH] (the old value is kept as the
    tail) and never removes or reorders an entry of [sys.path] (the old
    list is kept as the head). *)
Theorem activate_frame p key :
  str_eqb (lit "PATH") key = false ->
  environ_get
    (environ (_activate_venv_if_requested is_windows fs_exists PROJECT_ROOT
                python_version p)) key = environ_get (environ p) key /\
  (exists added,
     current_path (_activate_venv_if_requested is_windows fs_exists PROJECT_ROOT
                     python_version p) = added ++ current_path p) /\
  (exists extra,
     sys_path (_activate_venv_if_requested is_windows fs_exists PROJECT_ROOT
                 python_version p) = sys_path p ++ extra).
Proof.
  intros Hk.
  destruct (activate_cases p) as [H|(H & _)]; rewrite H.
  - repeat split; [now exists [] | exists []; now rewrite app_nil_r].
  - split; [now apply activated_environ_flag|].
    unfold activated.
    set (venv_dir := path_div is_windows PROJECT_ROOT (lit ".venv")).
    set (venv_bin := bin_dir is_windows venv_dir).
    set (p1 := {| sys_executable := python_of is_windows venv_bin;
                  environ := environ p; sys_path := sys_path p |}).
    destruct (add_site_packages_frame venv_dir (_update_path is_windows venv_bin p1))
      as (_ & F2 & [extra F3]).
    destruct (update_path_idempotent venv_bin p1) as (_ & _ & [added U3] & _ & U5).
    split.
    + exists added.
      rewrite (current_path_environ _ _ F2), U3. reflexivity.
    + exists extra. now rewrite F3, U5.
Qed.

(** X11: with [ENSURE_VIRTUALENV=1] and the same project root, the
    activation of [service.py] and [ensure_virtualenv] of [utils.py] make
    the same changes. *)
Theorem activate_is_ensure_virtualenv p :
  environ_get (environ p) (lit "ENSURE_VIRTUALENV") = Some (lit "1") ->
  _activate_venv_if_requested is_windows fs_exists PROJECT_ROOT python_version p =
  ensure_virtualenv is_windows fs_exists PROJECT_ROOT python_version p.
Proof.
  intros Hf. unfold _activate_venv_if_requested, ensure_virtualenv.
  rewrite Hf. change (str_eqb (lit "1") (lit "1")) with true. cbn [negb].
  destruct (fs_exists (path_div _ _ _)); cbn [negb]; [|reflexivity].
  destruct (fs_exists (python_of _ _)); cbn [negb]; reflexivity.
Qed.

(** X12: when the environment directory is called [venv] and there is no
    [.venv], [venv_exists] is true (the resolver falls back to [venv]) but
    neither [ensure_virtualenv] nor the activation of [service.py] does
    anything: both look at [.venv] only. *)
Theorem ensure_virtualenv_ignores_venv p :
  fs_exists (path_div is_windows PROJECT_ROOT (lit ".venv")) = false ->
  fs_exists (path_div is_windows PROJECT_ROOT (lit "venv")) = true ->
  fs_exists (python_of is_windows
               (bin_dir is_windows (path_div is_windows PROJECT_ROOT (lit "venv"))))
    = true ->
  venv_exists is_windows fs_exists PROJECT_ROOT = true /\
  ensure_virtualenv is_windows fs_exists PROJECT_ROOT python_version p = p /\
  _activate_venv_if_requested is_windows fs_exists PROJECT_ROOT python_version p = p.
Proof.
  intros H1 H2 H3. split; [|split].
  - unfold venv_exists, PYTHON, VENV_BIN, VENV_DIR, _resolve_venv_dir.
    cbn [find]. rewrite H1, H2. now rewrite H2, H3.
  - unfold ensure_virtualenv. now rewrite H1.
  - unfold _activate_venv_if_requested.
    destruct (environ_get _ _) as [flag|]; [|reflexivity].
    destruct (negb (str_eqb flag (lit "1"))); [reflexivity|].
    now rewrite H1.
Qed.
End EnvironmentProperties.

(** ** Executor, GitHub CLI check and dispatcher *)



(** X3: the dispatcher keeps what the task printed, in front, and adds at
    most two events of its own, none at all when the task returns. *)
Theorem dispatcher_only_appends ansi {Args} (t : task Args) a :
  exists added,
    fst (run_service_command ansi t a) = fst (t a) ++ added /\
    (forall v, snd (t a) = Returns v -> added = []) /\
    (length added <= 2)%nat.
Proof.
  unfold run_service_command. destruct (t a) as [out [v|e]]; cbn [fst snd].
  - exists []. rewrite app_nil_r. repeat split. simpl. lia.
  - destruct (isinstance e KeyboardInterrupt).
    + eexists. split; [reflexivity|]. split; [discriminate | simpl; lia].
    + destruct (isinstance e Exception).
      * eexists. split; [reflexivity|]. split; [discriminate | simpl; lia].
      * exists []. rewrite app_nil_r. split; [reflexivity|].
        split; [discriminate | simpl; lia].
Qed.

(** X4: on a result set whose counts are numbers, the summary is the
    entry-wise reading of the result set: [total] is its size, [passed] the
    number of entries with a true status, [failed] the rest, and the two
    totals are the sums of the entries' counts (missing counts are 0). *)
Theorem summarize_results_closed_form results :
  numeric_counts results = true ->
  exists s,
    summarize_results results = Returns s /\
    total s = Z.of_nat (length results) /\
    passed s = count_passed results /\
    failed s = Z.of_nat (length results) - count_passed results /\
    total_errors s = sum_over entry_errors results /\
    total_warnings s = sum_over entry_warnings results.
Proof.
  intros H. unfold summarize_results.
  rewrite summarize_loop_closed by exact H. cbn [bind].
  eexists. split; [reflexivity|].
  cbn. repeat split; lia.
Qed.

Lemma sum_over_perm f l l' :
  Permutation l l' -> sum_over f l = sum_over f l'.
Proof.
  unfold sum_over. induction 1; cbn [map fold_right]; lia.
Qed.

Lemma numeric_counts_perm l l' :
  Permutation l l' -> numeric_counts l = true -> numeric_counts l' = true.
Proof.
  unfold numeric_counts. intros Hp H.
  rewrite forallb_forall in *. intros x Hx. apply H.
  eapply Permutation_in; [symmetry; exact Hp | exact Hx].
Qed.

(** X5: the summary does not depend on the order of the entries. *)
Theorem summarize_results_order_independent results results' :
  Permutation results results' ->
  numeric_counts results = true ->
  summarize_results results = summarize_results results'.
Proof.
  intros Hp Hn. pose proof (numeric_counts_perm _ _ Hp Hn) as Hn'.
  unfold summarize_results.
  rewrite !summarize_loop_closed by assumption. cbn [bind].
  unfold count_passed.
  rewrite (Permutation_length Hp).
  rewrite !(sum_over_perm _ _ _ Hp). reflexivity.
Qed.

Lemma summarize_step_monotone c r c' :
  summarize_step c r = Returns c' ->
  c_passed c <= c_passed c' /\ c_failed c <= c_failed c'.
Proof.
  destruct r as [v|d]; cbn [summarize_step].
  - destruct (truthy v); intros H; injection H as <-; cbn; lia.
  - intros H.
    apply bind_returns in H as (errs & _ & H).
    apply bind_returns in H as (warns & _ & H).
    destruct (truthy _); injection H as <-; cbn; lia.
Qed.

Lemma summarize_loop_monotone items : forall c c',
  summarize_loop items c = Returns c' ->
  c_passed c <= c_passed c' /\ c_failed c <= c_failed c'.
Proof.
  induction items as [|[k r] items IH]; intros c c' H.
  - injection H as <-. lia.
  - cbn [summarize_loop] in H.
    apply bind_returns in H as (c1 & Hs & Hl).
    apply summarize_step_monotone in Hs. apply IH in Hl. lia.
Qed.

(** X6: in every summary, [passed] and [failed] lie between 0 and [total]
    and the exact value of the success rate, [100 * passed / total],
    between 0 and 100. *)
Theorem summarize_results_bounds results s :
  summarize_results results = Returns s ->
  0 <= passed s <= total s /\
  0 <= failed s <= total s /\
  (0 <= exact_rate s)%Q /\ (exact_rate s <= inject_Z 100)%Q.
Proof.
  intros H. unfold summarize_results in H.
  apply bind_returns in H as (c & Hloop & H).
  injection H as <-. unfold exact_rate. cbn [total passed failed].
  pose proof (summarize_loop_counts _ _ _ Hloop) as Hsum.
  pose proof (summarize_loop_monotone _ _ _ Hloop) as [Hp Hf].
  cbn in Hsum, Hp, Hf.
  split; [lia|]. split; [lia|].
  destruct (Z.of_nat (length results) >? 0) eqn:Hgt.
  - apply Z.gtb_lt in Hgt.
    destruct (Z.of_nat (length results)) as [|t|t] eqn:Ht; try lia.
    destruct (c_passed c) as [|pp|pp] eqn:Hc; try lia.
    + split; unfold Qle; cbn; lia.
    + split; unfold Qle; cbn; [lia|].
      assert (Z.pos pp <= Z.pos t) by lia. nia.
  - split; unfold Qle; cbn; lia.
Qed.

(** X7: as soon as one structured entry has an [errors] or [warnings] value
    that is neither [int] nor [bool], [summarize_results] raises
    [TypeError] and gives no summary. *)
Theorem summarize_results_type_error results :
  numeric_counts results = false ->
  exists e, summarize_results results = Raises e /\ exn_class e = TypeError.
Proof.
  intros H. unfold summarize_results.
  destruct (summarize_loop_type_error results zero_counters H) as (e & -> & Hc).
  cbn [bind]. eauto.
Qed.

(** ** Table layout *)

Lemma ljust_length s w : length (ljust s w) = Nat.max (length s) w.
Proof. unfold ljust. rewrite length_app, repeat_length. lia. Qed.

Lemma fold_max_ge l : forall a, (a <= fold_left Nat.max l a)%nat.
Proof.
  induction l as [|x l IH]; intros a; cbn [fold_left]; [lia|].
  specialize (IH (Nat.max a x)). lia.
Qed.

Lemma fold_max_in l : forall a x, In x l -> (x <= fold_left Nat.max l a)%nat.
Proof.
  induction l as [|y l IH]; intros a x Hin; [destruct Hin|].
  cbn [fold_left]. destruct Hin as [->|Hin].
  - pose proof (fold_max_ge l (Nat.max a x)). lia.
  - now apply IH.
Qed.

Lemma max_len_bound keys longest k :
  max_len keys = Returns longest -> In k keys -> (length k <= longest)%nat.
Proof.
  destruct keys as [|k0 keys]; [discriminate|].
  intros H Hin. injection H as <-.
  destruct Hin as [->|Hin].
  - apply fold_max_ge.
  - apply fold_max_in. now apply in_map.
Qed.

Lemma tool_width_of_bounds longest :
  (20 <= tool_width_of longest /\ longest + 2 <= tool_width_of longest)%nat.
Proof.
  unfold tool_width_of. destruct (longest + 2 <? 20)%nat eqn:E.
  - apply Nat.ltb_lt in E. lia.
  - apply Nat.ltb_ge in E. lia.
Qed.

Lemma render_row_starts ansi tw show k r row :
  render_row ansi tw show k r = Returns row ->
  exists rest, row = ljust k tw ++ rest.
Proof.
  unfold render_row. destruct (row_fields r) as [status details].
  intros H. apply bind_returns in H as (cell & _ & H). injection H as <-.
  unfold row_head. destruct show; rewrite <- ?app_assoc; eauto.
Qed.

(** X13: the lines of the table are the title lines, the header, a rule of
    exactly 70 dashes and one row per entry.  The tool column has one width
    for all rows, at least 20 and at least two more than every tool name,
    so every row starts with the whole tool name and its padding; the
    header line is always longer than the rule. *)
Theorem table_layout ansi rs title show lines :
  table_lines ansi rs title show = Returns lines ->
  exists tw rows,
    lines = title_lines title ++ table_header tw show :: str_mul 45%N 70 :: rows /\
    length rows = length rs /\
    (20 <= tw)%nat /\
    (70 < length (table_header tw show))%nat /\
    forall pre k r post, rs = pre ++ (k, r) :: post ->
      (length k + 2 <= tw)%nat /\
      exists rest,
        nth_error rows (length pre) =
          Some (k ++ repeat 32%N (tw - length k) ++ rest).
Proof.
  intros H. apply table_lines_shape in H as (longest & rows & Hm & Hr & ->).
  pose proof (tool_width_of_bounds longest) as [H20 Hl].
  exists (tool_width_of longest), rows.
  split; [reflexivity|]. split; [now apply render_rows_length in Hr|].
  split; [exact H20|]. split.
  - unfold table_header, details_width. destruct show;
      rewrite !length_app, !ljust_length;
      change (length (lit "Tool")) with 4%nat;
      change (length (lit " ")) with 1%nat;
      change (length (lit "Status")) with 6%nat;
      change (length (lit "Details")) with 7%nat; lia.
  - intros pre k r post ->.
    assert (Hk : (length k <= longest)%nat).
    { apply (max_len_bound _ _ _ Hm). rewrite map_app. cbn [map fst].
      apply in_or_app. right. now left. }
    split; [lia|].
    apply render_rows_nth in Hr as (row & Hrow & Hnth).
    apply render_row_starts in Hrow as [rest ->].
    exists rest. rewrite Hnth. unfold ljust. now rewrite <- app_assoc.
Qed.

Lemma format_left_raises v w e :
  format_left v w = Raises e -> exn_class e = TypeError.
Proof. destruct v; simpl; intros H; try discriminate. now injection H as <-. Qed.

Lemma render_row_raises ansi tw show k r e :
  render_row ansi tw show k r = Raises e -> exn_class e = TypeError.
Proof.
  unfold render_row. destruct (row_fields r) as [status details].
  destruct (format_left details details_width) eqn:E; cbn [bind]; [discriminate|].
  intros H. injection H as <-. now apply format_left_raises in E.
Qed.

Lemma render_rows_raises ansi tw show items : forall e,
  render_rows ansi tw show items = Raises e -> exn_class e = TypeError.
Proof.
  induction items as [|[k r] items IH]; intros e H; [discriminate|].
  cbn [render_rows] in H.
  destruct (render_row ansi tw show k r) eqn:E; cbn [bind] in H.
  - destruct (render_rows ansi tw show items) eqn:E'; cbn [bind] in H;
      [discriminate|]. injection H as <-. now apply IH.
  - injection H as <-. now apply render_row_raises in E.
Qed.

Lemma render_rows_stops ansi tw show pre k r post e0 :
  render_row ansi tw show k r = Raises e0 ->
  exists e, render_rows ansi tw show (pre ++ (k, r) :: post) = Raises e.
Proof.
  intros H. rewrite render_rows_app.
  destruct (render_rows ansi tw show pre); cbn [bind]; [|eauto].
  cbn [render_rows]. rewrite H. cbn [bind]. eauto.
Qed.

(** X14: an entry whose [details] value is [None] and whose counts do not
    override it makes [format_results_table] raise [TypeError] ([None]
    takes no format specification). *)
Theorem none_details_raise_type_error ansi pre k d post title show :
  get d (lit "details") (VStr []) = VNone ->
  truthy (get d (lit "errors") (VInt 0)) = false ->
  truthy (get d (lit "warnings") (VInt 0)) = false ->
  exists e,
    format_results_table ansi (pre ++ (k, Structured d) :: post) title show = Raises e
    /\ exn_class e = TypeError.
Proof.
  intros Hd He Hw.
  unfold format_results_table, table_lines.
  destruct (max_len (map fst (pre ++ (k, Structured d) :: post))) as [longest|e] eqn:Hm.
  - cbn [bind].
    assert (Hrow : exists e0,
              render_row ansi (tool_width_of longest) show k (Structured d) = Raises e0).
    { rewrite render_row_structured. cbn [row_fields].
      rewrite He, Hw, Hd. cbn [orb snd format_left bind]. eauto. }
    destruct Hrow as [e0 Hrow].
    destruct (render_rows_stops ansi _ show pre k _ post e0 Hrow) as [e Hr].
    rewrite Hr. cbn [bind]. exists e. split; [reflexivity|].
    now apply render_rows_raises in Hr.
  - rewrite map_app in Hm. destruct pre; discriminate Hm.
Qed.

Lemma skipn_app_exact {A} (l l' : list A) n :
  length l = n -> skipn n (l ++ l') = l'.
Proof.
  intros <-. rewrite skipn_app, skipn_all, Nat.sub_diag. reflexivity.
Qed.

(** X15: with the status column shown, the details cell of a row starts
    21 code points after the tool column, the [Details] heading only 12:
    the status cell is padded to 19 to allow for 9 code points of colour
    codes.  With the codes on, the glyph text has 15 code points (6
    visible); with the codes off it has 6, and the 9 are spaces. *)
Theorem details_cell_offset ansi tw k r row :
  render_row ansi tw true k r = Returns row ->
  (length k <= tw)%nat ->
  (4 <= tw)%nat ->
  skipn (tw + 12) (table_header tw true) = ljust (lit "Details") 50 /\
  format_left (snd (row_fields r)) 50 = Returns (skipn (tw + 21) row) /\
  length (PASS ansi) = (if ansi then 15 else 6)%nat /\
  length (FAIL ansi) = (if ansi then 15 else 6)%nat.
Proof.
  intros H Hk Htw. split; [|split; [|split]].
  - unfold table_header, details_width. cbv zeta.
    rewrite app_assoc. apply skipn_app_exact.
    rewrite !length_app, !ljust_length.
    change (length (lit "Tool")) with 4%nat.
    change (length (lit " ")) with 1%nat.
    change (length (lit "Status")) with 6%nat. lia.
  - unfold render_row in H. destruct (row_fields r) as [status details].
    cbn [snd]. apply bind_returns in H as (cell & Hc & H). injection H as <-.
    unfold details_width in Hc. rewrite Hc. f_equal.
    unfold row_head. cbv beta iota zeta.
    change (32%N :: cell) with ([32%N] ++ cell).
    rewrite app_assoc. symmetry. apply skipn_app_exact.
    rewrite !length_app, ljust_length. cbn [length]. rewrite ljust_length.
    match goal with
    | |- context [Nat.max (length ?x) 19] =>
        assert (Hs : (length x <= 19)%nat)
          by (destruct (truthy status), ansi; cbn; lia);
        rewrite (Nat.max_r _ _ Hs)
    end.
    rewrite (Nat.max_r _ _ Hk). lia.
  - now destruct ansi.
  - now destruct ansi.
Qed.

(** ** Generic table formatter *)

Lemma join_map_length {A} sep (f : A -> str) xs : forall x,
  length (join sep (map f (x :: xs))) =
    (length (f x) + list_sum (map (fun y => length sep + length (f y)) xs))%nat.
Proof.
  induction xs as [|y xs IH]; intros x.
  - cbn. lia.
  - change (join sep (map f (x :: y :: xs)))
      with (f x ++ sep ++ join sep (map f (y :: xs))).
    rewrite !length_app, IH.
    change (list_sum (map (fun y0 => length sep + length (f y0)) (y :: xs)))%nat
      with (length sep + length (f y)
            + list_sum (map (fun y0 => length sep + length (f y0)) xs))%nat.
    lia.
Qed.

Lemma list_sum_map_eq {A} (f g : A -> nat) l :
  (forall x, In x l -> f x = g x) -> list_sum (map f l) = list_sum (map g l).
Proof.
  induction l as [|x l IH]; intros H; [reflexivity|].
  change (list_sum (map f (x :: l))) with (f x + list_sum (map f l))%nat.
  change (list_sum (map g (x :: l))) with (g x + list_sum (map g l))%nat.
  rewrite (H x (or_introl eq_refl)), IH; auto.
  intros y Hy. apply H. now right.
Qed.

Lemma list_sum_map_le {A} (f g : A -> nat) l :
  (forall x, (f x <= g x)%nat) ->
  (list_sum (map f l) <= list_sum (map g l))%nat /\
  (list_sum (map f l) = list_sum (map g l) <-> Forall (fun x => f x = g x) l).
Proof.
  intros H. induction l as [|x l [IH1 IH2]].
  - split; [reflexivity|]. split; auto.
  - change (list_sum (map f (x :: l))) with (f x + list_sum (map f l))%nat.
    change (list_sum (map g (x :: l))) with (g x + list_sum (map g l))%nat.
    pose proof (H x). split; [lia|]. split.
    + intros E. constructor; [lia|]. apply IH2. lia.
    + intros F. inversion F; subst. apply IH2 in H4. lia.
Qed.

Section FormatTableProperties.
Variable str_lower : str -> str.

Lemma cell_length item col : length (cell str_lower item col) = width_of col.
Proof.
  unfold cell. rewrite ljust_length, length_firstn. lia.
Qed.

Lemma separator_length c cs :
  length (separator (c :: cs)) =
    (width_of c + 4 + list_sum (map (fun col => 3 + width_of col) cs))%nat.
Proof.
  unfold separator. rewrite !length_app, join_map_length.
  unfold str_mul. rewrite repeat_length.
  change (length (lit "+")) with 1%nat.
  rewrite (list_sum_map_eq _ (fun col => 3 + width_of col)%nat).
  - lia.
  - intros x _. rewrite repeat_length. lia.
Qed.

Lemma data_row_length item c cs :
  length (data_row str_lower (c :: cs) item) =
    (width_of c + 4 + list_sum (map (fun col => 3 + width_of col) cs))%nat.
Proof.
  unfold data_row. rewrite !length_app, join_map_length, cell_length.
  change (length (lit "| ")) with 2%nat. change (length (lit " |")) with 2%nat.
  change (length (lit " | ")) with 3%nat.
  rewrite (list_sum_map_eq _ (fun col => 3 + width_of col)%nat).
  - lia.
  - intros x _. now rewrite cell_length.
Qed.

Lemma header_row_length c cs :
  length (header_row (c :: cs)) =
    (Nat.max (length (header c)) (width_of c) + 4
     + list_sum (map (fun col => 3 + Nat.max (length (header col)) (width_of col)) cs))%nat.
Proof.
  unfold header_row. rewrite !length_app, join_map_length, ljust_length.
  change (length (lit "| ")) with 2%nat. change (length (lit " |")) with 2%nat.
  change (length (lit " | ")) with 3%nat.
  rewrite (list_sum_map_eq _
             (fun col => 3 + Nat.max (length (header col)) (width_of col))%nat).
  - lia.
  - intros x _. now rewrite ljust_length.
Qed.

(** X16: with at least one column, every data row of [format_table] has
    exactly the length of the separator line, whatever the formatters
    return: each cell is cut and padded to its column's width. *)
Theorem format_table_rows_aligned data columns :
  columns <> [] ->
  Forall (fun line => length line = length (separator columns))
         (map (data_row str_lower columns) (data_list data)).
Proof.
  intros H. destruct columns as [|c cs]; [congruence|].
  apply Forall_forall. intros line Hin.
  apply in_map_iff in Hin as (item & <- & _).
  now rewrite data_row_length, separator_length.
Qed.

(** X17: the header row of [format_table] is never shorter than the
    separator line, and it has the same length exactly when every header
    fits its column: headers are padded but not cut. *)
Theorem format_table_header_aligned columns :
  columns <> [] ->
  (length (separator columns) <= length (header_row columns))%nat /\
  (length (header_row columns) = length (separator columns) <->
   Forall (fun col => (length (header col) <= width_of col)%nat) columns).
Proof.
  intros H. destruct columns as [|c cs]; [congruence|].
  rewrite header_row_length, separator_length.
  assert (Hpt : forall col : column,
            (3 + width_of col <= 3 + Nat.max (length (header col)) (width_of col))%nat)
    by (intros; lia).
  destruct (list_sum_map_le _ _ cs Hpt) as [Hle Hiff].
  split; [lia|]. split.
  - intros E. constructor; [lia|].
    assert (Hs : list_sum (map (fun col => (3 + width_of col)%nat) cs) =
                 list_sum (map (fun col =>
                    (3 + Nat.max (length (header col)) (width_of col))%nat) cs)) by lia.
    apply Hiff in Hs. eapply Forall_impl; [|exact Hs]. cbn. intros; lia.
  - intros F. inversion F as [|? ? Hc Hcs]; subst.
    assert (Hs : Forall (fun x => (3 + width_of x)%nat =
                   (3 + Nat.max (length (header x)) (width_of x))%nat) cs).
    { eapply Forall_impl; [|exact Hcs]. cbn. intros; lia. }
    apply Hiff in Hs. lia.
Qed.
End FormatTableProperties.

(** ** The further properties on sample inputs *)



Lemma summarize_results_closed_form_witness :
  exists s,
    summarize_results sample_results = Returns s /\
    total s = Z.of_nat (length sample_results) /\
    passed s = count_passed sample_results /\
    failed s = Z.of_nat (length sample_results) - count_passed sample_results /\
    total_errors s = sum_over entry_errors sample_results /\
    total_warnings s = sum_over entry_warnings sample_results.
Proof. exact (summarize_results_closed_form sample_results eq_refl). Defined.

Lemma summarize_results_order_independent_witness :
  summarize_results sample_results = summarize_results sample_results_swapped.
Proof.
  apply summarize_results_order_independent; [|reflexivity].
  apply perm_swap.
Defined.

Lemma summarize_results_bounds_witness :
  exists s,
    summarize_results sample_results = Returns s /\
    0 <= passed s <= total s /\
    0 <= failed s <= total s /\
    (0 <= exact_rate s)%Q /\ (exact_rate s <= inject_Z 100)%Q.
Proof.
  eexists. split; [reflexivity|].
  exact (summarize_results_bounds sample_results _ eq_refl).
Defined.

Lemma summarize_results_type_error_witness :
  exists e, summarize_results [(lit "lint", Structured uncounted_entry)] = Raises e
            /\ exn_class e = TypeError.
Proof.
  exact (summarize_results_type_error [(lit "lint", Structured uncounted_entry)]
           eq_refl).
Defined.

Lemma activate_frame_witness :
  environ_get
    (environ (_activate_venv_if_requested false dot_venv (lit "/proj") (lit "3.12")
                sample_process)) (lit "HOME") =
    environ_get (environ sample_process) (lit "HOME").
Proof.
  exact (proj1 (activate_frame false dot_venv (lit "/proj") (lit "3.12")
                  sample_process (lit "HOME") eq_refl)).
Defined.

Lemma activate_is_ensure_virtualenv_witness :
  _activate_venv_if_requested false dot_venv (lit "/proj") (lit "3.12") sample_process =
  ensure_virtualenv false dot_venv (lit "/proj") (lit "3.12") sample_process.
Proof.
  exact (activate_is_ensure_virtualenv false dot_venv (lit "/proj") (lit "3.12")
           sample_process eq_refl).
Defined.

Lemma ensure_virtualenv_ignores_venv_witness :
  venv_exists false venv_only (lit "/proj") = true /\
  ensure_virtualenv false venv_only (lit "/proj") (lit "3.12") sample_process
    = sample_process /\
  _activate_venv_if_requested false venv_only (lit "/proj") (lit "3.12") sample_process
    = sample_process.
Proof.
  exact (ensure_virtualenv_ignores_venv false venv_only (lit "/proj") (lit "3.12")
           sample_process eq_refl eq_refl eq_refl).
Defined.

Lemma table_layout_witness :
  exists lines tw rows,
    table_lines true sample_results None true = Returns lines /\
    lines = title_lines None ++ table_header tw true :: str_mul 45%N 70 :: rows /\
    length rows = length sample_results /\
    (20 <= tw)%nat.
Proof.
  destruct (table_layout true sample_results None true _ eq_refl)
    as (tw & rows & H1 & H2 & H3 & _).
  eexists. exists tw, rows. split; [reflexivity|]. now split.
Defined.

Lemma none_details_raise_type_error_witness :
  exists e,
    format_results_table true [(lit "docs", Structured undetailed_entry)] None true
      = Raises e
    /\ exn_class e = TypeError.
Proof.
  exact (none_details_raise_type_error true [] (lit "docs") undetailed_entry []
           None true eq_refl eq_refl eq_refl).
Defined.

Lemma details_cell_offset_witness :
  exists row,
    render_row true 20 true (lit "lint") (Plain (VBool true)) = Returns row /\
    format_left (snd (row_fields (Plain (VBool true)))) 50
      = Returns (skipn (20 + 21) row).
Proof.
  eexists. split; [reflexivity|].
  assert (H1 : (length (lit "lint") <= 20)%nat) by (cbn; lia).
  assert (H2 : (4 <= 20)%nat) by lia.
  exact (proj1 (proj2 (details_cell_offset true 20 (lit "lint") (Plain (VBool true))
                         _ eq_refl H1 H2))).
Defined.

Lemma format_table_rows_aligned_witness :
  Forall (fun line => length line = length (separator sample_columns))
         (map (data_row (fun s => s) sample_columns)
              (data_list (DataDict counted_entry))).
Proof.
  assert (H : sample_columns <> []) by discriminate.
  exact (format_table_rows_aligned (fun s => s) (DataDict counted_entry)
           sample_columns H).
Defined.

Lemma format_table_header_aligned_witness :
  (length (separator sample_columns) <= length (header_row sample_columns))%nat.
Proof.
  assert (H : sample_columns <> []) by discriminate.
  exact (proj1 (format_table_header_aligned sample_columns H)).
Defined.

(** The sample columns, whose second header is wider than its column,
    give a header row six characters longer than the separator. *)
Example sample_header_overhangs :
  length (header_row sample_columns) = (length (separator sample_columns) + 6)%nat.
Proof. reflexivity. Qed.
